(** * OneBot V11 adapter: a shallow embedding of
      [nonebot/adapters/onebot/v11/adapter.py]

    The adapter terminates three transports (HTTP webhook, WebSocket
    server, outbound WebSocket client), authenticates inbound traffic,
    keeps one [Bot] per remote identity in [self.bots] and decodes JSON
    payloads into events. [setup], [start_forward] and [_call_api] are
    left out.

    Conventions of the embedding:
    - a Python [str] is a [string], [bytes] is a [list Byte.byte];
    - [Optional[T]] is [option T]; [if x:] on an [Optional[str]] is
      [nonempty x], on a decoded JSON value it is [truthy x];
    - a function that logs, closes sockets, registers bots or schedules
      tasks returns the list of those [action]s in program order;
    - [self.bots] is a [gmap string Bot] passed in and out explicitly;
    - a raised exception is [None] (or a dedicated constructor) in the
      result of the call that raises;
    - an event object is truthy, so [if event:] asks whether
      [json_to_event] gave one. *)

From Stdlib Require Import ZArith String Ascii List Bool Lia.
From Stdlib Require Import DecimalString SpecFloat.
From stdpp Require Import gmap strings list fin_maps.

Set Warnings "-register-all".
Open Scope string_scope.
Open Scope Z_scope.
Open Scope list_scope.

(** ** Values produced by [json.loads] *)

Inductive json : Type :=
| JNull
| JBool (b : bool)
| JInt (z : Z)
| JFloat (f : spec_float)
| JStr (s : string)
| JList (l : list json)
| JDict (d : list (string * json)).

(** [bool(v)] for a decoded value. *)
Definition float_is_zero (f : spec_float) : bool :=
  match f with S754_zero _ => true | _ => false end.

Definition truthy (v : json) : bool :=
  match v with
  | JNull => false
  | JBool b => b
  | JInt z => negb (Z.eqb z 0)
  | JFloat f => negb (float_is_zero f)
  | JStr s => negb (String.eqb s "")
  | JList l => match l with [] => false | _ => true end
  | JDict d => match d with [] => false | _ => true end
  end.

(** [k in d] and [d.get(k)] on a decoded object; [d.get] answers
    [None], that is [JNull], for a missing key. *)
Fixpoint dict_lookup (d : list (string * json)) (k : string) : option json :=
  match d with
  | [] => None
  | (k', v) :: rest => if String.eqb k' k then Some v else dict_lookup rest k
  end.

Definition dict_contains (d : list (string * json)) (k : string) : bool :=
  match dict_lookup d k with Some _ => true | None => false end.

Definition dict_get (d : list (string * json)) (k : string) : json :=
  match dict_lookup d k with Some v => v | None => JNull end.

(** [str(n)] for a Python [int]. *)
Definition str_of_int (z : Z) : string := NilZero.string_of_int (Z.to_int z).

(** ** Strings, bytes and digests *)

Inductive str_or_bytes : Type :=
| CStr (s : string)
| CBytes (b : list Byte.byte).

(** [if x:] on an [Optional[str]]: the value when it is a non-empty
    string. *)
Definition nonempty (x : option string) : option string :=
  match x with
  | Some s => if String.eqb s "" then None else Some s
  | None => None
  end.

Definition hex_digit (n : N) : ascii :=
  match n with
  | 0 => "0" | 1 => "1" | 2 => "2" | 3 => "3" | 4 => "4" | 5 => "5"
  | 6 => "6" | 7 => "7" | 8 => "8" | 9 => "9" | 10 => "a" | 11 => "b"
  | 12 => "c" | 13 => "d" | 14 => "e" | _ => "f"
  end%N%char.

Definition hex_of_byte (b : Byte.byte) : string :=
  let n := Byte.to_N b in
  String (hex_digit (n / 16)) (String (hex_digit (n mod 16)) EmptyString).

(** [digest.hex()]: two lowercase hexadecimal digits per byte. *)
Fixpoint hexlify (d : list Byte.byte) : string :=
  match d with
  | [] => ""
  | b :: rest => hex_of_byte b +:+ hexlify rest
  end.

(** Lowercase hexadecimal as a reading, in the words of the claims:
    a digit 0-9 or a-f stands for its value, two digits for one byte,
    the high four bits first. An uppercase digit, any other character
    or an odd number of digits is no such text. *)
Definition hex_value (c : ascii) : option N :=
  let n := N_of_ascii c in
  if ((48 <=? n) && (n <=? 57))%N then Some (n - 48)%N
  else if ((97 <=? n) && (n <=? 102))%N then Some (n - 87)%N
  else None.

Fixpoint unhex (s : string) : option (list Byte.byte) :=
  match s with
  | EmptyString => Some []
  | String _ EmptyString => None
  | String hi (String lo rest) =>
      match hex_value hi, hex_value lo, unhex rest with
      | Some h, Some l, Some d =>
          match Byte.of_N (16 * h + l) with
          | Some b => Some (b :: d)
          | None => None
          end
      | _, _, _ => None
      end
  end.

(** ** Requests, responses, configuration, sessions *)

Record Request : Type := {
  headers : gmap string string;
  content : option str_or_bytes
}.

Record Response : Type := {
  status_code : Z;
  response_content : option string;
  response_request : option Request
}.

Record Config : Type := {
  secret : option string;
  access_token : option string;
  ws_urls : list string
}.

(** [Bot(self, self_id)]. *)
Record Bot : Type := { self_id : string }.

(** What is written with [log(level, message, exception)]; the attached
    exception object is not recorded. *)
Inductive action {event : Type} : Type :=
| Log (level msg : string)
| AddResult (result : json)
| WsAccept
| WsClose (code : option Z) (reason : option string)
| BotConnect (bot : Bot)
| BotDisconnect (bot : Bot)
| CreateTask (bot : Bot) (e : event)
| OpenWebsocket (url : string) (request_headers : gmap string string)
| Sleep (seconds : Z).
Arguments action : clear implicits.

Definition RECONNECT_INTERVAL : Z := 3.

(** ** Sockets *)

(** What one [await websocket.receive()] gives: a frame, an exception
    that [except Exception] catches, or one it does not catch
    (cancellation). *)
Inductive received : Type :=
| Frame (data : str_or_bytes)
| ReceiveError
| Cancelled.

(** A socket as a handler sees it: the handshake request, what the
    successive [receive()] calls give, and whether [close()] raises
    (an exception that [except Exception] catches). [accept()] is
    taken to succeed. *)
Record WebSocket : Type := {
  ws_request : Request;
  incoming : list received;
  close_raises : bool
}.

(** What one [await self.websocket(request)] gives: an exception
    that is caught, or a socket. Cancellation is scripted at
    [receive()] only: opening a socket and sleeping are taken not to
    be cancelled. *)
Inductive connect_result : Type :=
| ConnectError
| Connected (ws : WebSocket).

(** ** A small instance of the collaborators

    Event classes, a class table, a bearer parser and a few payloads
    with their texts, to evaluate the adapter on. *)
Module Sample.

Record event : Type := { class : string; fields : list (string * json) }.

Definition Event : string := "Event".

Definition has_int (d : list (string * json)) (k : string) : bool :=
  match dict_lookup d k with Some (JInt _) => true | _ => false end.

Definition has_str (d : list (string * json)) (k : string) : bool :=
  match dict_lookup d k with Some (JStr _) => true | _ => false end.

Definition str_is (d : list (string * json)) (k v : string) : bool :=
  match dict_lookup d k with Some (JStr s) => String.eqb s v | _ => false end.

(** Modelled from the spec: the event classes of [event.py], which is
    not among the sources. [Event] is the universal fallback and takes
    any envelope, an object with a [post_type] and an integer
    [self_id]; a more specific class also wants its own discriminating
    fields. *)
Definition accepts (m : string) (d : list (string * json)) : bool :=
  let envelope := dict_contains d "post_type" && has_int d "self_id" in
  if String.eqb m "Event" then envelope
  else if String.eqb m "MetaEvent" then
    envelope && str_is d "post_type" "meta_event"
  else if String.eqb m "LifecycleMetaEvent" then
    envelope && str_is d "post_type" "meta_event"
      && str_is d "meta_event_type" "lifecycle" && has_str d "sub_type"
  else if String.eqb m "MessageEvent" then
    envelope && str_is d "post_type" "message" && has_str d "message"
  else if String.eqb m "PrivateMessageEvent" then
    envelope && str_is d "post_type" "message"
      && str_is d "message_type" "private" && has_str d "message"
  else false.

Definition parse_obj (m : string) (json_data : json) : option event :=
  match json_data with
  | JDict d => if accepts m d then Some {| class := m; fields := d |} else None
  | _ => None
  end.

(** Modelled from the spec: the class table of [event.py], most
    specific class first and the fallback last, [Event] alone for a key
    that is not registered. *)
Definition get_event_model (key : string) : list string :=
  if String.eqb key "meta_event.lifecycle.connect" then
    ["LifecycleMetaEvent"; "MetaEvent"; "Event"]
  else if String.eqb key "message.private.friend" then
    ["PrivateMessageEvent"; "MessageEvent"; "Event"]
  else ["Event"].

Definition isinstance_LifecycleMetaEvent (e : event) : bool :=
  String.eqb (class e) "LifecycleMetaEvent".

Definition event_sub_type (e : event) : string :=
  match dict_lookup (fields e) "sub_type" with Some (JStr s) => s | _ => "" end.

Definition event_self_id (e : event) : Z :=
  match dict_lookup (fields e) "self_id" with Some (JInt z) => z | _ => 0 end.

(** Modelled from the spec: [utils.get_auth_bearer], the token of a
    [Bearer] authorization header. *)
Definition get_auth_bearer (header : option string) : option string :=
  match header with
  | Some h =>
      if String.prefix "Bearer " h
      then Some (String.substring 7 (String.length h - 7) h)
      else None
  | None => None
  end.

(** Stand-ins for the encoder, the keyed digest and the printers. *)
Definition encode_utf8 (s : string) : list Byte.byte := list_byte_of_string s.
Definition digest (key msg : list Byte.byte) : list Byte.byte :=
  List.rev key ++ msg.
Definition py_repr (v : json) : string := "<value>".
Definition escape_tag (s : string) : string := s.

(** Payloads. *)
Definition connect_42 : json :=
  JDict [("post_type", JStr "meta_event"); ("meta_event_type", JStr "lifecycle");
         ("sub_type", JStr "connect"); ("self_id", JInt 42)].

Definition heartbeat_42 : json :=
  JDict [("post_type", JStr "meta_event"); ("meta_event_type", JStr "heartbeat");
         ("self_id", JInt 42)].

Definition private_message : json :=
  JDict [("post_type", JStr "message"); ("message_type", JStr "private");
         ("sub_type", JStr "friend"); ("self_id", JInt 42);
         ("message", JStr "hi")].

Definition api_result : json :=
  JDict [("status", JStr "ok"); ("retcode", JInt 0); ("echo", JStr "1")].

(** An object with a [post_type] that no class takes: it has no
    [self_id]. *)
Definition no_self_id : json :=
  JDict [("post_type", JStr "notice")].

(** Their texts: [q s] is [s] between double quotes. *)
Definition q (s : string) : string :=
  String "034"%char s +:+ String "034"%char EmptyString.

Definition connect_text : string :=
  "{" +:+ q "post_type" +:+ ":" +:+ q "meta_event" +:+ ","
      +:+ q "meta_event_type" +:+ ":" +:+ q "lifecycle" +:+ ","
      +:+ q "sub_type" +:+ ":" +:+ q "connect" +:+ ","
      +:+ q "self_id" +:+ ":42}".

Definition heartbeat_text : string :=
  "{" +:+ q "post_type" +:+ ":" +:+ q "meta_event" +:+ ","
      +:+ q "meta_event_type" +:+ ":" +:+ q "heartbeat" +:+ ","
      +:+ q "self_id" +:+ ":42}".

Definition message_text : string :=
  "{" +:+ q "post_type" +:+ ":" +:+ q "message" +:+ ","
      +:+ q "message_type" +:+ ":" +:+ q "private" +:+ ","
      +:+ q "sub_type" +:+ ":" +:+ q "friend" +:+ ","
      +:+ q "self_id" +:+ ":42,"
      +:+ q "message" +:+ ":" +:+ q "hi" +:+ "}".

Definition result_text : string :=
  "{" +:+ q "status" +:+ ":" +:+ q "ok" +:+ ","
      +:+ q "retcode" +:+ ":0,"
      +:+ q "echo" +:+ ":" +:+ q "1" +:+ "}".

Definition no_self_id_text : string :=
  "{" +:+ q "post_type" +:+ ":" +:+ q "notice" +:+ "}".

(** A text that is not JSON. *)
Definition malformed_text : string := "{oops".

(** [json.loads] on the texts above; any other text is taken as
    malformed. *)
Definition json_loads (data : str_or_bytes) : option json :=
  match data with
  | CStr s =>
      if String.eqb s connect_text then Some connect_42
      else if String.eqb s heartbeat_text then Some heartbeat_42
      else if String.eqb s message_text then Some private_message
      else if String.eqb s result_text then Some api_result
      else if String.eqb s no_self_id_text then Some no_self_id
      else None
  | CBytes _ => None
  end.

Definition request (hs : list (string * string)) (body : option str_or_bytes)
  : Request :=
  {| headers := list_to_map hs; content := body |}.

Definition open_config : Config :=
  {| secret := None; access_token := None; ws_urls := [] |}.

Definition guarded_config : Config :=
  {| secret := Some "key"; access_token := Some "tok"; ws_urls := [] |}.

(** A request signed under the secret of [guarded_config], with its
    token. *)
Definition signed_request : Request :=
  request
    [("x-self-id", "42");
     ("x-signature",
      "sha1=" +:+ hexlify (digest (encode_utf8 "key") (encode_utf8 message_text)));
     ("authorization", "Bearer tok")]
    (Some (CStr message_text)).

(** A request with an identity and nothing else. *)
Definition empty_request : Request := request [("x-self-id", "42")] None.

(** An object whose [post_type] is a number, and one whose [sub_type]
    is the empty string. *)
Definition numeric_post_type : json :=
  JDict [("post_type", JInt 5); ("self_id", JInt 1)].

Definition empty_sub_type : list (string * json) :=
  [("post_type", JStr "message"); ("sub_type", JStr "")].

Definition bot_42 : Bot := {| self_id := "42" |}.

(** Sockets: a handshake of identity 42, then the frames. *)
Definition socket (input : list received) (raises : bool) : WebSocket :=
  {| ws_request := request [("x-self-id", "42")] None;
     incoming := input;
     close_raises := raises |}.

End Sample.

Section Adapter.

Set Default Proof Using "Type".

(** The event classes of [event.py] and the collaborators the adapter
    calls. *)
Context {event model : Type}.

(** [str.encode("utf-8")]. *)
Variable encode_utf8 : string -> list Byte.byte.
(** [hmac.new(key, msg, "sha1").digest()]. *)
Variable hmac_sha1 : list Byte.byte -> list Byte.byte -> list Byte.byte.
(** [utils.get_auth_bearer]. *)
Variable get_auth_bearer : option string -> option string.
(** [json.loads]; [None] when it raises. *)
Variable json_loads : str_or_bytes -> option json.
(** [str(v)] for a float, a list or a dict, and [nonebot.utils.escape_tag]. *)
Variable py_repr : json -> string.
Variable escape_tag : string -> string.
(** [event.get_event_model], [model.parse_obj] ([None] when validation
    raises) and the base class [Event]. *)
Variable get_event_model : string -> list model.
Variable parse_obj : model -> json -> option event.
Variable Event : model.
(** [isinstance(event, LifecycleMetaEvent)], [event.sub_type] and
    [event.self_id]. *)
Variable isinstance_LifecycleMetaEvent : event -> bool.
Variable event_sub_type : event -> string.
Variable event_self_id : event -> Z.

Variable onebot_config : Config.

Abbreviation act := (action event).

Definition body_bytes (c : str_or_bytes) : list Byte.byte :=
  match c with
  | CBytes b => b
  | CStr s => encode_utf8 s
  end.

(** [hmac.new(secret.encode("utf-8"), body, "sha1").hexdigest()]. *)
Definition hexdigest (key : string) (c : str_or_bytes) : string :=
  hexlify (hmac_sha1 (encode_utf8 key) (body_bytes c)).

Definition _check_signature (request : Request) : option Response * list act :=
  let x_signature := headers request !! "x-signature" in
  match nonempty (secret onebot_config) with
  | Some secret =>
      match nonempty x_signature with
      | None =>
          (Some {| status_code := 401;
                   response_content := Some "Missing Signature";
                   response_request := Some request |},
           [Log "WARNING" "Missing Signature Header"])
      | Some x_signature =>
          match content request with
          | None =>
              (Some {| status_code := 400;
                       response_content := Some "Missing Content";
                       response_request := Some request |}, [])
          | Some c =>
              let sig := hexdigest secret c in
              if negb (String.eqb x_signature ("sha1=" +:+ sig)) then
                (Some {| status_code := 403;
                         response_content := Some "Signature is invalid";
                         response_request := None |},
                 [Log "WARNING" "Signature Header is invalid"])
              else (None, [])
          end
      end
  | None => (None, [])
  end.

Definition _check_access_token (request : Request) : option Response * list act :=
  let token := get_auth_bearer (headers request !! "authorization") in
  match nonempty (access_token onebot_config) with
  | Some access_token =>
      if negb (bool_decide (Some access_token = token)) then
        let msg := match nonempty token with
                   | Some _ => "Authorization Header is invalid"
                   | None => "Missing Authorization Header"
                   end in
        (Some {| status_code := 403;
                 response_content := Some msg;
                 response_request := None |},
         [Log "WARNING" msg])
      else (None, [])
  | None => (None, [])
  end.

(** *** Decoding *)

(** [str(v)], which is also what an f-string puts for [{v}]. *)
Definition py_str (v : json) : string :=
  match v with
  | JStr s => s
  | JNull => "None"
  | JBool true => "True"
  | JBool false => "False"
  | JInt z => str_of_int z
  | _ => py_repr v
  end.

(** Lines 269-274 up to the call of [get_event_model]: the argument of
    that call, or [None] when building it raises ([KeyError], or
    [TypeError] for [post_type + ...] with a [post_type] that is not a
    [str]). *)
Definition event_key (d : list (string * json)) : option string :=
  match dict_lookup d "post_type" with
  | None => None
  | Some post_type =>
      let detail_type := dict_get d (py_str post_type +:+ "_type") in
      let detail_type :=
        if truthy detail_type then "." +:+ py_str detail_type else "" in
      let sub_type := dict_get d "sub_type" in
      let sub_type :=
        if truthy sub_type then "." +:+ py_str sub_type else "" in
      match post_type with
      | JStr post_type => Some ((post_type +:+ detail_type) +:+ sub_type)
      | _ => None
      end
  end.

(** The [for model in models] loop: the first model whose [parse_obj]
    succeeds, with one debug line per model that raised before it. *)
Fixpoint parse_first (models : list model) (json_data : json)
  : option event * list act :=
  match models with
  | [] => (None, [])
  | m :: rest =>
      match parse_obj m json_data with
      | Some e => (Some e, [])
      | None =>
          let '(r, logs) := parse_first rest json_data in
          (r, Log "DEBUG" "Event Parser Error" :: logs)
      end
  end.

Definition failed_to_parse (json_data : json) : act :=
  Log "ERROR"
    ("<r><bg #f8bbd0>Failed to parse event. Raw: "
       +:+ escape_tag (py_repr json_data) +:+ "</bg #f8bbd0></r>").

(** Lines 275-284 and the handler of line 285: the [for ... else] over
    the candidate classes, the fallback on [Event], and the error line
    when that raises too. *)
Definition parse_cascade (models : list model) (json_data : json)
  : option event * list act :=
  match parse_first models json_data with
  | (Some e, logs) => (Some e, logs)
  | (None, logs) =>
      match parse_obj Event json_data with
      | Some e => (Some e, logs)
      | None => (None, logs ++ [failed_to_parse json_data])
      end
  end.

Definition json_to_event (json_data : json) : option event * list act :=
  match json_data with
  | JDict d =>
      if negb (dict_contains d "post_type") then
        (None, [AddResult json_data])
      else
        match event_key d with
        | None => (None, [failed_to_parse json_data])
        | Some key => parse_cascade (get_event_model key) json_data
        end
  | _ => (None, [])
  end.

(** The first class of a list that takes the payload. *)
Fixpoint first_success (models : list model) (json_data : json)
  : option event :=
  match models with
  | [] => None
  | m :: rest =>
      match parse_obj m json_data with
      | Some e => Some e
      | None => first_success rest json_data
      end
  end.

Definition is_object (v : json) : bool :=
  match v with JDict _ => true | _ => false end.

(** One optional segment of the lookup key: a dot and the field's
    value when the field is there and its value is truthy. *)
Definition key_segment (d : list (string * json)) (field : string) : string :=
  match dict_lookup d field with
  | Some v => if truthy v then "." +:+ py_str v else ""
  | None => ""
  end.

(** The lookup key in the spec's words: the segment is there exactly
    when the field is present and not null. *)
Definition spec_segment (d : list (string * json)) (field : string) : string :=
  match dict_lookup d field with
  | Some JNull => ""
  | Some v => "." +:+ py_str v
  | None => ""
  end.

Definition spec_event_key (d : list (string * json)) : option string :=
  match dict_lookup d "post_type" with
  | Some post_type =>
      Some ((py_str post_type
               +:+ spec_segment d (py_str post_type +:+ "_type"))
              +:+ spec_segment d "sub_type")
  | None => None
  end.

(** *** Sessions *)

(** [BaseAdapter.bot_connect] and [bot_disconnect]: tell the driver and
    store the bot in, or pop it from, [self.bots]. *)
Definition bot_connect (bots : gmap string Bot) (bot : Bot)
  : gmap string Bot * list act :=
  (<[self_id bot := bot]> bots, [BotConnect bot]).

Definition bot_disconnect (bots : gmap string Bot) (bot : Bot)
  : gmap string Bot * list act :=
  (delete (self_id bot) bots, [BotDisconnect bot]).

(** *** HTTP *)

Definition mkResponse (code : Z) (c : option string) : Response :=
  {| status_code := code; response_content := c; response_request := None |}.

(** What a call of the handler ends in: a response, or the exception
    [json.loads] raised. *)
Inductive http_result : Type :=
| Returns (r : Response)
| Raises.

Definition _handle_http (bots : gmap string Bot) (request : Request)
  : http_result * gmap string Bot * list act :=
  match nonempty (headers request !! "x-self-id") with
  | None =>
      (Returns (mkResponse 400 (Some "Missing X-Self-ID Header")), bots,
       [Log "WARNING" "Missing X-Self-ID Header"])
  | Some self_id =>
      match _check_signature request with
      | (Some response, acts1) => (Returns response, bots, acts1)
      | (None, acts1) =>
          match _check_access_token request with
          | (Some response, acts2) => (Returns response, bots, acts1 ++ acts2)
          | (None, acts2) =>
              match content request with
              | None => (Returns (mkResponse 204 None), bots, acts1 ++ acts2)
              | Some data =>
                  match json_loads data with
                  | None => (Raises, bots, acts1 ++ acts2)
                  | Some json_data =>
                      match json_to_event json_data with
                      | (None, acts3) =>
                          (Returns (mkResponse 204 None), bots,
                           acts1 ++ acts2 ++ acts3)
                      | (Some event, acts3) =>
                          match bots !! self_id with
                          | Some bot =>
                              (Returns (mkResponse 204 None), bots,
                               acts1 ++ acts2 ++ acts3 ++ [CreateTask bot event])
                          | None =>
                              let bot := {| self_id := self_id |} in
                              let '(bots', acts4) := bot_connect bots bot in
                              (Returns (mkResponse 204 None), bots',
                               acts1 ++ acts2 ++ acts3 ++ acts4
                                 ++ [CreateTask bot event])
                          end
                      end
                  end
              end
          end
      end
  end.

(** The checks of the HTTP path as the spec lists them (4.1): the
    first one that fails, [None] when all pass; and the status the spec
    gives each rejection (6). *)
Inductive rejection : Type :=
| MissingIdentity
| MissingSignature
| MissingBody
| InvalidSignature
| MissingToken
| InvalidToken.

Definition spec_status (why : rejection) : Z :=
  match why with
  | MissingIdentity => 400
  | MissingSignature => 401
  | MissingBody => 400
  | InvalidSignature => 403
  | MissingToken => 403
  | InvalidToken => 403
  end.

Definition spec_token_check (request : Request) : option rejection :=
  match nonempty (access_token onebot_config) with
  | Some expected =>
      match nonempty (get_auth_bearer (headers request !! "authorization")) with
      | None => Some MissingToken
      | Some token =>
          if String.eqb token expected then None else Some InvalidToken
      end
  | None => None
  end.

Definition spec_signature_check (request : Request) : option rejection :=
  match nonempty (secret onebot_config) with
  | Some key =>
      match nonempty (headers request !! "x-signature") with
      | None => Some MissingSignature
      | Some given =>
          match content request with
          | None => Some MissingBody
          | Some body =>
              if String.eqb given ("sha1=" +:+ hexdigest key body)
              then None else Some InvalidSignature
          end
      end
  | None => None
  end.

Definition spec_auth_guard (request : Request) : option rejection :=
  match nonempty (headers request !! "x-self-id") with
  | None => Some MissingIdentity
  | Some _ =>
      match spec_signature_check request with
      | Some why => Some why
      | None => spec_token_check request
      end
  end.

(** *** WebSocket server *)

(** [await websocket.close(code, reason)]: [None] when it raises. *)
Definition ws_close (websocket : WebSocket) (code : option Z)
  (reason : option string) : option unit * list act :=
  (if close_raises websocket then None else Some tt, [WsClose code reason]).

(** How a receive loop stands once the scripted input is used up:
    still awaiting a frame, left by an exception that was caught, or
    left by one that propagates. *)
Inductive loop_end : Type :=
| Awaiting
| Caught
| Propagated.

(** The [while True] loop of [_handle_ws] (lines 127-132). *)
Fixpoint ws_receive_loop (bot : Bot) (input : list received)
  : loop_end * list act :=
  match input with
  | [] => (Awaiting, [])
  | Frame data :: rest =>
      match json_loads data with
      | None => (Caught, [])
      | Some json_data =>
          let '(event, acts1) := json_to_event json_data in
          let acts2 :=
            match event with
            | Some event => [CreateTask bot event]
            | None => []
            end in
          let '(r, acts3) := ws_receive_loop bot rest in
          (r, acts1 ++ acts2 ++ acts3)
      end
  | ReceiveError :: _ => (Caught, [])
  | Cancelled :: _ => (Propagated, [])
  end.

(** The [finally] block of [_handle_ws] (lines 141-145): the outcome of
    [close()] is dropped by [except Exception: pass]. *)
Definition ws_teardown (bots : gmap string Bot) (websocket : WebSocket)
  (bot : Bot) : gmap string Bot * list act :=
  let '(_, acts1) := ws_close websocket None None in
  let '(bots', acts2) := bot_disconnect bots bot in
  (bots', acts1 ++ acts2).

Definition ws_error_log (self_id : string) : act :=
  Log "ERROR"
    ("<r><bg #f8bbd0>Error while process data from websocketfor bot "
       +:+ escape_tag self_id +:+ ".</bg #f8bbd0></r>").

(** Where a call of [_handle_ws] stands on a scripted socket: the
    handshake was refused (the handler is then over, by [return] or,
    when the [close(1008, ...)] of the refusal raises, by that
    exception: the two are not told apart), the loop still awaits a
    frame, the handler returned after its teardown, or an exception
    left it after the teardown. *)
Inductive ws_outcome : Type :=
| Refused
| Serving
| Returned
| Escaped.

Definition _handle_ws (bots : gmap string Bot) (websocket : WebSocket)
  : ws_outcome * gmap string Bot * list act :=
  match nonempty (headers (ws_request websocket) !! "x-self-id") with
  | None =>
      (Refused, bots,
       Log "WARNING" "Missing X-Self-ID Header"
         :: snd (ws_close websocket (Some 1008) (Some "Missing X-Self-ID Header")))
  | Some self_id =>
      match bots !! self_id with
      | Some _ =>
          (Refused, bots,
           Log "WARNING" ("There's already a bot " +:+ self_id +:+ ", ignored")
             :: snd (ws_close websocket (Some 1008) (Some "Duplicate X-Self-ID")))
      | None =>
          match _check_access_token (ws_request websocket) with
          | (Some response, acts1) =>
              (Refused, bots,
               acts1 ++ snd (ws_close websocket (Some 1008)
                               (response_content response)))
          | (None, acts1) =>
              let bot := {| self_id := self_id |} in
              let '(bots1, acts2) := bot_connect bots bot in
              let '(r, acts3) := ws_receive_loop bot (incoming websocket) in
              let opened := acts1 ++ [WsAccept] ++ acts2 ++ acts3 in
              match r with
              | Awaiting => (Serving, bots1, opened)
              | Caught =>
                  let '(bots2, acts4) := ws_teardown bots1 websocket bot in
                  (Returned, bots2, opened ++ [ws_error_log self_id] ++ acts4)
              | Propagated =>
                  let '(bots2, acts4) := ws_teardown bots1 websocket bot in
                  (Escaped, bots2, opened ++ acts4)
              end
          end
      end
  end.

(** *** WebSocket client *)

Definition forward_setup_log (url : string) : act :=
  Log "ERROR"
    ("<r><bg #f8bbd0>Error while setup websocket to "
       +:+ escape_tag url +:+ ". Trying to reconnect...</bg #f8bbd0></r>").

Definition forward_error_log (url : string) : act :=
  Log "ERROR"
    ("<r><bg #f8bbd0>Error while process data from websocket"
       +:+ escape_tag url +:+ ". Trying to reconnect...</bg #f8bbd0></r>").

(** The [except Exception] clause of the inner loop (lines 240-251). *)
Definition forward_on_error (url : string) (ws : WebSocket) : list act :=
  let '(_, acts) := ws_close ws None None in
  acts ++ [forward_error_log url].

(** Lines 231-234: the event does not identify the connection. *)
Definition not_connect (event0 : event) : bool :=
  negb (isinstance_LifecycleMetaEvent event0)
  || negb (String.eqb (event_sub_type event0) "connect").

(** The inner [while True] loop of [_forward_ws] (lines 223-251), with
    the local variable [bot] passed in and out. *)
Fixpoint forward_receive_loop (url : string) (ws : WebSocket)
  (bot : option Bot) (bots : gmap string Bot) (input : list received)
  : loop_end * option Bot * gmap string Bot * list act :=
  match input with
  | [] => (Awaiting, bot, bots, [])
  | Frame data :: rest =>
      match json_loads data with
      | None => (Caught, bot, bots, forward_on_error url ws)
      | Some json_data =>
          let '(event, acts1) := json_to_event json_data in
          match event with
          | None =>
              let '(r, bot', bots', acts) :=
                forward_receive_loop url ws bot bots rest in
              (r, bot', bots', acts1 ++ acts)
          | Some event =>
              match bot with
              | None =>
                  if not_connect event then
                    let '(r, bot', bots', acts) :=
                      forward_receive_loop url ws bot bots rest in
                    (r, bot', bots', acts1 ++ acts)
                  else
                    let self_id := event_self_id event in
                    let b := {| self_id := str_of_int self_id |} in
                    let '(bots1, acts2) := bot_connect bots b in
                    let '(r, bot', bots', acts) :=
                      forward_receive_loop url ws (Some b) bots1 rest in
                    (r, bot', bots',
                     acts1 ++ acts2 ++ [CreateTask b event] ++ acts)
              | Some b =>
                  let '(r, bot', bots', acts) :=
                    forward_receive_loop url ws bot bots rest in
                  (r, bot', bots', acts1 ++ [CreateTask b event] ++ acts)
              end
          end
      end
  | ReceiveError :: _ => (Caught, bot, bots, forward_on_error url ws)
  | Cancelled :: _ => (Propagated, bot, bots, [])
  end.

(** The [finally] block of the outer loop (lines 252-255). *)
Definition forward_finally (bot : option Bot) (bots : gmap string Bot)
  : option Bot * gmap string Bot * list act :=
  match bot with
  | Some b =>
      let '(bots', acts) := bot_disconnect bots b in
      (None, bots', acts)
  | None => (bot, bots, [])
  end.

(** Lines 202-205: the headers of the client request. *)
Definition forward_headers : gmap string string :=
  match nonempty (access_token onebot_config) with
  | Some token => {[ "Authorization" := "Bearer " +:+ token ]}
  | None => ∅
  end.

(** Where the outer loop stands once the scripted connection attempts
    are used up. *)
Inductive forward_state : Type :=
| Connecting
| Receiving
| Stopped.

(** The outer [while True] loop of [_forward_ws] (lines 209-257). *)
Fixpoint forward_loop (url : string) (bot : option Bot)
  (bots : gmap string Bot) (attempts : list connect_result)
  : forward_state * gmap string Bot * list act :=
  match attempts with
  | [] => (Connecting, bots, [])
  | ConnectError :: rest =>
      let '(r, bots', acts) := forward_loop url bot bots rest in
      (r, bots',
       [OpenWebsocket url forward_headers; forward_setup_log url;
        Sleep RECONNECT_INTERVAL]
         ++ acts)
  | Connected ws :: rest =>
      let '(r, bot1, bots1, acts1) :=
        forward_receive_loop url ws bot bots (incoming ws) in
      let opened := OpenWebsocket url forward_headers :: acts1 in
      match r with
      | Awaiting => (Receiving, bots1, opened)
      | Caught =>
          let '(bot2, bots2, acts2) := forward_finally bot1 bots1 in
          let '(r', bots', acts) := forward_loop url bot2 bots2 rest in
          (r', bots', opened ++ acts2 ++ [Sleep RECONNECT_INTERVAL] ++ acts)
      | Propagated =>
          let '(_, bots2, acts2) := forward_finally bot1 bots1 in
          (Stopped, bots2, opened ++ acts2)
      end
  end.

Definition _forward_ws (url : string) (bots : gmap string Bot)
  (attempts : list connect_result)
  : forward_state * gmap string Bot * list act :=
  forward_loop url None bots attempts.

(** A received item that is a frame [json.loads] reads. *)
Definition readable (r : received) : bool :=
  match r with
  | Frame data =>
      match json_loads data with Some _ => true | None => false end
  | _ => false
  end.

(** A received item that decodes to the event which identifies a
    forward connection: a [LifecycleMetaEvent] whose [sub_type] is
    connect. *)
Definition identifies (r : received) : bool :=
  match r with
  | Frame data =>
      match json_loads data with
      | Some json_data =>
          match fst (json_to_event json_data) with
          | Some e => negb (not_connect e)
          | None => false
          end
      | None => false
      end
  | _ => false
  end.

(** The events decoded from the input, up to the first item that ends
    the receive loop. *)
Fixpoint decoded_events (input : list received) : list event :=
  match input with
  | Frame data :: rest =>
      match json_loads data with
      | Some json_data =>
          match fst (json_to_event json_data) with
          | Some e => e :: decoded_events rest
          | None => decoded_events rest
          end
      | None => []
      end
  | _ => []
  end.

(** Kinds of action, to count them in what a handler did. *)
Definition is_task (a : act) : bool :=
  match a with CreateTask _ _ => true | _ => false end.

Definition is_connect (a : act) : bool :=
  match a with BotConnect _ => true | _ => false end.

Definition is_disconnect (a : act) : bool :=
  match a with BotDisconnect _ => true | _ => false end.

Definition is_close (a : act) : bool :=
  match a with WsClose _ _ => true | _ => false end.

(** What decoding and dispatching may do: log, hand a result over,
    schedule a task; nothing on the socket or on [self.bots]. *)
Definition is_quiet (a : act) : bool :=
  match a with Log _ _ | AddResult _ => true | _ => false end.

Definition is_harmless (a : act) : bool := is_quiet a || is_task a.

(** Every registered bot sits under its own identity. *)
Definition keyed_by_identity (bots : gmap string Bot) : Prop :=
  forall k b, bots !! k = Some b -> self_id b = k.

(** ** Properties of the checks and of the decoder *)

Lemma nonempty_Some (x : option string) (s : string) :
  nonempty x = Some s <-> x = Some s /\ s <> "".
Proof.
  unfold nonempty. destruct x as [t|].
  - destruct (String.eqb_spec t "") as [->|Hne]; split.
    + discriminate.
    + intros [Heq Hs]. inversion Heq; subst. contradiction.
    + intros Heq. inversion Heq; subst. auto.
    + intros [Heq _]. exact Heq.
  - split; [discriminate | intros [Heq _]; discriminate].
Qed.

Lemma nonempty_sha1 (sig : string) :
  nonempty (Some ("sha1=" +:+ sig)) = Some ("sha1=" +:+ sig).
Proof. reflexivity. Qed.

(** A check that lets the request through writes no log line. *)
Lemma check_signature_pass_silent (request : Request) :
  fst (_check_signature request) = None -> _check_signature request = (None, []).
Proof.
  unfold _check_signature.
  destruct (nonempty (secret onebot_config)); [|reflexivity].
  destruct (nonempty (headers request !! "x-signature")); [|discriminate].
  destruct (content request); [|discriminate].
  destruct (negb _); [discriminate | reflexivity].
Qed.

Lemma check_access_token_pass_silent (request : Request) :
  fst (_check_access_token request) = None ->
  _check_access_token request = (None, []).
Proof.
  unfold _check_access_token.
  destruct (nonempty (access_token onebot_config)); [|reflexivity].
  destruct (negb _); [discriminate | reflexivity].
Qed.

(** Without a secret, or with the empty string for one, the step
    checks nothing. *)
Lemma check_signature_unconfigured (request : Request) :
  nonempty (secret onebot_config) = None ->
  _check_signature request = (None, []).
Proof. intros H. unfold _check_signature. rewrite H. reflexivity. Qed.

(** [hexlify] writes what [unhex] reads, and nothing else reads as
    the same bytes. *)
Lemma unhex_pair (hi lo : ascii) (rest : string) :
  unhex (String hi (String lo rest))
  = match hex_value hi, hex_value lo, unhex rest with
    | Some h, Some l, Some d =>
        match Byte.of_N (16 * h + l) with
        | Some b => Some (b :: d)
        | None => None
        end
    | _, _, _ => None
    end.
Proof. reflexivity. Qed.

Lemma unhex_byte (b : Byte.byte) (rest : string) (d : list Byte.byte) :
  unhex rest = Some d -> unhex (hex_of_byte b +:+ rest) = Some (b :: d).
Proof.
  intros H.
  change (hex_of_byte b +:+ rest)
    with (String (hex_digit (Byte.to_N b / 16))
            (String (hex_digit (Byte.to_N b mod 16)) rest)).
  rewrite unhex_pair, H. destruct b; reflexivity.
Qed.

Lemma unhex_hexlify (d : list Byte.byte) : unhex (hexlify d) = Some d.
Proof.
  induction d as [|b d IH]; [reflexivity|].
  change (hexlify (b :: d)) with (hex_of_byte b +:+ hexlify d).
  apply unhex_byte, IH.
Qed.

Lemma hex_value_digit (c : ascii) (n : N) :
  hex_value c = Some n -> (n < 16)%N /\ c = hex_digit n.
Proof.
  destruct c as [[] [] [] [] [] [] [] []]; vm_compute; intros H;
    first [discriminate | injection H as <-; split; reflexivity].
Qed.

Lemma hex_of_byte_digits (h l : N) (b : Byte.byte) :
  (h < 16)%N -> (l < 16)%N -> Byte.of_N (16 * h + l) = Some b ->
  hex_of_byte b = String (hex_digit h) (String (hex_digit l) EmptyString).
Proof.
  intros Hh Hl Hb. apply Byte.to_of_N in Hb. unfold hex_of_byte. rewrite Hb.
  replace ((16 * h + l) / 16)%N with h.
  2: { apply (N.div_unique _ _ h l); lia. }
  replace ((16 * h + l) mod 16)%N with l.
  2: { apply (N.mod_unique _ _ h l); lia. }
  reflexivity.
Qed.

Lemma unhex_unique (d : list Byte.byte) :
  forall s, unhex s = Some d -> s = hexlify d.
Proof.
  induction d as [|b d IH]; intros s Hs.
  - destruct s as [|hi [|lo rest]]; [reflexivity|discriminate|].
    rewrite unhex_pair in Hs.
    destruct (hex_value hi), (hex_value lo), (unhex rest); try discriminate.
    destruct (Byte.of_N _); discriminate.
  - destruct s as [|hi [|lo rest]]; try discriminate.
    rewrite unhex_pair in Hs.
    destruct (hex_value hi) as [h|] eqn:Hhi; [|discriminate].
    destruct (hex_value lo) as [l|] eqn:Hlo; [|discriminate].
    destruct (unhex rest) as [d'|] eqn:Hrest; [|discriminate].
    destruct (Byte.of_N (16 * h + l)) as [b'|] eqn:Hb; [|discriminate].
    injection Hs as -> ->.
    apply hex_value_digit in Hhi as [Hh ->].
    apply hex_value_digit in Hlo as [Hl ->].
    change (hexlify (b :: d)) with (hex_of_byte b +:+ hexlify d).
    rewrite (hex_of_byte_digits h l b Hh Hl Hb), (IH rest Hrest).
    reflexivity.
Qed.

(** C1. With a secret configured (a non-empty string, which is what
    [if secret:] asks) and a body present, of which [raw] are the
    bytes (the body itself when it is [bytes], its UTF-8 encoding when
    it is a [str]), there is exactly one text of lowercase hexadecimal
    digits that reads as the HMAC-SHA1 of [raw] under the secret, and
    the signature step lets the request through exactly when the
    [x-signature] header is sha1= followed by that text. Without the
    header the step answers 401, and whatever it rejects with a body
    present it rejects with 401 or 403. *)
Theorem check_signature_accepts_iff (request : Request) (S : string) :
  secret onebot_config = Some S -> S <> "" ->
  (forall raw : list Byte.byte,
     content request = Some (CBytes raw)
     \/ (exists text, content request = Some (CStr text)
                      /\ raw = encode_utf8 text) ->
     exists hex,
       unhex hex = Some (hmac_sha1 (encode_utf8 S) raw)
       /\ (forall hex', unhex hex' = Some (hmac_sha1 (encode_utf8 S) raw) ->
                        hex' = hex)
       /\ (fst (_check_signature request) = None
           <-> headers request !! "x-signature" = Some ("sha1=" +:+ hex))
       /\ (forall r, fst (_check_signature request) = Some r ->
                     status_code r = 401 \/ status_code r = 403))
  /\ (headers request !! "x-signature" = None ->
      exists r, fst (_check_signature request) = Some r /\ status_code r = 401).
Proof.
  intros Hsecret HS.
  assert (Hcfg : nonempty (secret onebot_config) = Some S)
    by (apply nonempty_Some; auto).
  split.
  - intros raw Hbody.
    exists (hexlify (hmac_sha1 (encode_utf8 S) raw)).
    split; [apply unhex_hexlify|]. split; [apply unhex_unique|].
    assert (Hraw : exists B, content request = Some B /\ body_bytes B = raw).
    { destruct Hbody as [H|(text & H & ->)]; eexists; split;
        first [exact H | reflexivity]. }
    destruct Hraw as (B & HB & <-).
    unfold _check_signature. rewrite Hcfg, HB. unfold hexdigest.
    destruct (nonempty (headers request !! "x-signature")) as [x|] eqn:Hx.
    + destruct (String.eqb_spec x
                  ("sha1=" +:+ hexlify (hmac_sha1 (encode_utf8 S) (body_bytes B))))
        as [->|Hne]; simpl.
      * split; [|discriminate]. split; [|reflexivity].
        intros _. apply nonempty_Some in Hx. destruct Hx as [Hx _]. exact Hx.
      * split.
        -- split; [discriminate|]. intros Hh. rewrite Hh, nonempty_sha1 in Hx.
           injection Hx as <-. contradiction.
        -- intros r [= <-]. right. reflexivity.
    + simpl. split.
      * split; [discriminate|]. intros Hh. rewrite Hh, nonempty_sha1 in Hx.
        discriminate.
      * intros r [= <-]. left. reflexivity.
  - intros Hnone. unfold _check_signature. rewrite Hcfg, Hnone. simpl.
    eexists. split; reflexivity.
Qed.

(** C3. A value that is not an object gives no event and no action at
    all; an object without [post_type] gives no event and is handed
    as it is to [ResultStore.add_result], whatever else it holds. *)
Theorem json_to_event_not_an_event (json_data : json) :
  (is_object json_data = false -> json_to_event json_data = (None, []))
  /\ (forall d, json_data = JDict d -> dict_lookup d "post_type" = None ->
        json_to_event json_data = (None, [AddResult json_data])).
Proof.
  split.
  - destruct json_data; simpl; intros H; try reflexivity; discriminate.
  - intros d -> Hd. unfold json_to_event, dict_contains. rewrite Hd.
    reflexivity.
Qed.

Lemma parse_first_first_success (models : list model) (json_data : json) :
  fst (parse_first models json_data) = first_success models json_data.
Proof.
  induction models as [|m rest IH]; simpl; [reflexivity|].
  destruct (parse_obj m json_data); [reflexivity|].
  destruct (parse_first rest json_data). exact IH.
Qed.

Lemma first_success_app (ms1 ms2 : list model) (json_data : json) :
  first_success (ms1 ++ ms2) json_data
  = match first_success ms1 json_data with
    | Some e => Some e
    | None => first_success ms2 json_data
    end.
Proof.
  induction ms1 as [|m rest IH]; simpl; [reflexivity|].
  destruct (parse_obj m json_data); [reflexivity | exact IH].
Qed.

Lemma parse_cascade_first_success (models : list model) (json_data : json) :
  fst (parse_cascade models json_data)
  = first_success (models ++ [Event]) json_data.
Proof.
  unfold parse_cascade. rewrite first_success_app.
  rewrite <- parse_first_first_success.
  destruct (parse_first models json_data) as [[e|] logs]; simpl; [reflexivity|].
  destruct (parse_obj Event json_data); reflexivity.
Qed.

Lemma event_key_str (d : list (string * json)) (p : string) :
  dict_lookup d "post_type" = Some (JStr p) ->
  event_key d
  = Some ((p +:+ key_segment d (p +:+ "_type")) +:+ key_segment d "sub_type").
Proof.
  intros Hp. unfold event_key, key_segment, dict_get. rewrite Hp. simpl.
  destruct (dict_lookup d (p +:+ "_type")) as [v1|];
    destruct (dict_lookup d "sub_type") as [v2|]; reflexivity.
Qed.

Lemma json_to_event_post_type_not_str (d : list (string * json)) (v : json) :
  dict_lookup d "post_type" = Some v -> (forall p, v <> JStr p) ->
  json_to_event (JDict d) = (None, [failed_to_parse (JDict d)]).
Proof.
  intros Hv Hns. unfold json_to_event, dict_contains, event_key.
  rewrite Hv. simpl. destruct v; try reflexivity.
  exfalso. eapply Hns. reflexivity.
Qed.

Lemma json_to_event_str (d : list (string * json)) (p : string) :
  dict_lookup d "post_type" = Some (JStr p) ->
  json_to_event (JDict d)
  = parse_cascade
      (get_event_model
         ((p +:+ key_segment d (p +:+ "_type")) +:+ key_segment d "sub_type"))
      (JDict d).
Proof.
  intros Hp. unfold json_to_event, dict_contains.
  rewrite (event_key_str d p Hp), Hp. reflexivity.
Qed.

Lemma first_success_split (pre post : list model) (m : model)
  (json_data : json) (e : event) :
  Forall (fun m' => parse_obj m' json_data = None) pre ->
  parse_obj m json_data = Some e ->
  first_success (pre ++ m :: post) json_data = Some e.
Proof.
  intros Hpre Hm. induction Hpre as [|m' pre' Hm' _ IH]; simpl.
  - rewrite Hm. reflexivity.
  - rewrite Hm'. exact IH.
Qed.

(** C2, for an object whose [post_type] is a string. The decoder goes
    through the classes registered for the lookup key in order and
    answers with the first that takes the object; when none does it
    falls back on [Event], so an object that [Event] takes always
    gives an event. *)
Theorem json_to_event_first_candidate (d : list (string * json)) (p : string) :
  dict_lookup d "post_type" = Some (JStr p) ->
  exists key,
    event_key d = Some key
    /\ fst (json_to_event (JDict d))
       = first_success (get_event_model key ++ [Event]) (JDict d)
    /\ (forall pre m post e,
          get_event_model key = pre ++ m :: post ->
          Forall (fun m' => parse_obj m' (JDict d) = None) pre ->
          parse_obj m (JDict d) = Some e ->
          fst (json_to_event (JDict d)) = Some e)
    /\ (forall e, parse_obj Event (JDict d) = Some e ->
          first_success (get_event_model key) (JDict d) = None ->
          fst (json_to_event (JDict d)) = Some e)
    /\ (forall e, parse_obj Event (JDict d) = Some e ->
          exists e', fst (json_to_event (JDict d)) = Some e').
Proof.
  intros Hp. eexists. split; [apply (event_key_str d p Hp)|].
  rewrite (json_to_event_str d p Hp), parse_cascade_first_success.
  set (models := get_event_model _).
  repeat split.
  - intros pre m post e Hsplit Hpre Hm. rewrite Hsplit, <- app_assoc. simpl.
    apply first_success_split; assumption.
  - intros e He Hnone. rewrite first_success_app, Hnone. simpl.
    rewrite He. reflexivity.
  - intros e He. rewrite first_success_app.
    destruct (first_success models (JDict d)) as [e'|]; [eauto|].
    simpl. rewrite He. eauto.
Qed.

(** C9, for an object whose [post_type] is a string. The key handed to
    [get_event_model] is [post_type], then a dot and the value of the
    [{post_type}_type] field, then a dot and the value of [sub_type];
    a segment is there exactly when its field is present with a truthy
    value (not null, false, zero or empty). *)
Theorem lookup_key_segments (d : list (string * json)) (p : string) :
  dict_lookup d "post_type" = Some (JStr p) ->
  let segment field :=
    match dict_lookup d field with
    | Some v => if truthy v then "." +:+ py_str v else ""
    | None => ""
    end in
  event_key d = Some ((p +:+ segment (p +:+ "_type")) +:+ segment "sub_type")
  /\ json_to_event (JDict d)
     = parse_cascade
         (get_event_model
            ((p +:+ segment (p +:+ "_type")) +:+ segment "sub_type"))
         (JDict d).
Proof.
  intros Hp segment. split.
  - apply (event_key_str d p Hp).
  - apply (json_to_event_str d p Hp).
Qed.

(** *** The HTTP handler *)

Lemma check_signature_spec (request : Request) :
  match spec_signature_check request with
  | Some why =>
      exists r acts, _check_signature request = (Some r, acts)
                     /\ status_code r = spec_status why
                     /\ List.filter is_task acts = []
  | None => _check_signature request = (None, [])
  end.
Proof.
  unfold spec_signature_check, _check_signature.
  destruct (nonempty (secret onebot_config)) as [key|]; [|reflexivity].
  destruct (nonempty (headers request !! "x-signature")) as [given|];
    [|do 2 eexists; repeat split; reflexivity].
  destruct (content request) as [body|];
    [|do 2 eexists; repeat split; reflexivity].
  destruct (String.eqb given ("sha1=" +:+ hexdigest key body)); simpl;
    [reflexivity | do 2 eexists; repeat split; reflexivity].
Qed.

Lemma check_access_token_spec (request : Request) :
  match spec_token_check request with
  | Some why =>
      exists r acts, _check_access_token request = (Some r, acts)
                     /\ status_code r = spec_status why
                     /\ List.filter is_task acts = []
  | None => _check_access_token request = (None, [])
  end.
Proof.
  unfold spec_token_check, _check_access_token.
  destruct (nonempty (access_token onebot_config)) as [expected|] eqn:Hcfg;
    [|reflexivity].
  apply nonempty_Some in Hcfg as [_ Hne].
  destruct (get_auth_bearer (headers request !! "authorization")) as [token|].
  - simpl. destruct (String.eqb_spec token "") as [->|Htok].
    + rewrite bool_decide_eq_false_2 by congruence. simpl.
      do 2 eexists; repeat split; reflexivity.
    + destruct (String.eqb_spec token expected) as [->|Hdiff].
      * rewrite bool_decide_eq_true_2 by reflexivity. reflexivity.
      * rewrite bool_decide_eq_false_2 by congruence. simpl.
        do 2 eexists; repeat split; reflexivity.
  - simpl. do 2 eexists; repeat split; reflexivity.
Qed.

(** C8. The handler checks identity, then signature, then token, and
    answers with the status of the first check that fails: 400 for a
    missing identity, 401 for a missing signature, 400 for a missing
    body, 403 for a wrong signature and for a missing or wrong token.
    A rejection leaves [self.bots] as it was and schedules nothing;
    when every check passes the only response is 204. *)
Theorem handle_http_auth_order (bots : gmap string Bot) (request : Request) :
  match spec_auth_guard request with
  | Some why =>
      exists r acts,
        _handle_http bots request = (Returns r, bots, acts)
        /\ status_code r = spec_status why
        /\ List.filter is_task acts = []
  | None =>
      forall r, fst (fst (_handle_http bots request)) = Returns r ->
                status_code r = 204
  end.
Proof.
  unfold spec_auth_guard, _handle_http.
  destruct (nonempty (headers request !! "x-self-id")) as [id|].
  2: { do 2 eexists. repeat split; reflexivity. }
  pose proof (check_signature_spec request) as Hsig.
  destruct (spec_signature_check request) as [why|].
  { destruct Hsig as (r & acts & -> & Hst & Hno). exists r, acts. auto. }
  rewrite Hsig.
  pose proof (check_access_token_spec request) as Htok.
  destruct (spec_token_check request) as [why|].
  { destruct Htok as (r & acts & -> & Hst & Hno). exists r, acts. auto. }
  rewrite Htok. intros r.
  destruct (content request) as [data|]; simpl.
  - destruct (json_loads data) as [json_data|]; simpl; [|discriminate].
    destruct (json_to_event json_data) as [[e|] acts3]; simpl.
    + destruct (bots !! id); simpl; intros [= <-]; reflexivity.
    + intros [= <-]. reflexivity.
  - intros [= <-]. reflexivity.
Qed.

(** C10. A request that passes the identity, signature and token checks
    and has no body is answered 204 with nothing done: no log line, no
    task, [self.bots] as it was, and [json.loads] plays no part. A
    body that [json.loads] reads is answered 204 as well. *)
Theorem handle_http_no_body (bots : gmap string Bot) (request : Request)
  (id : string) :
  nonempty (headers request !! "x-self-id") = Some id ->
  fst (_check_signature request) = None ->
  fst (_check_access_token request) = None ->
  (content request = None ->
   _handle_http bots request = (Returns (mkResponse 204 None), bots, []))
  /\ (forall data json_data,
        content request = Some data -> json_loads data = Some json_data ->
        fst (fst (_handle_http bots request)) = Returns (mkResponse 204 None)).
Proof.
  intros Hid Hsig Htok.
  apply check_signature_pass_silent in Hsig.
  apply check_access_token_pass_silent in Htok.
  unfold _handle_http. rewrite Hid, Hsig, Htok. split.
  - intros ->. reflexivity.
  - intros data json_data -> ->.
    destruct (json_to_event json_data) as [[e|] acts3]; simpl; [|reflexivity].
    destruct (bots !! id); reflexivity.
Qed.

(** *** The WebSocket server *)

Lemma filter_none {A : Type} (f g : A -> bool) (l : list A) :
  Forall (fun a => g a = true) l ->
  (forall a, g a = true -> f a = false) ->
  List.filter f l = [].
Proof.
  intros Hl Hfg. induction Hl as [|a l Ha _ IH]; simpl; [reflexivity|].
  rewrite (Hfg a Ha). exact IH.
Qed.

Lemma parse_first_quiet (models : list model) (json_data : json) :
  Forall (fun a => is_quiet a = true) (snd (parse_first models json_data)).
Proof.
  induction models as [|m rest IH]; simpl; [constructor|].
  destruct (parse_obj m json_data); simpl; [constructor|].
  destruct (parse_first rest json_data) as [r logs]. simpl in *.
  constructor; [reflexivity | exact IH].
Qed.

Lemma json_to_event_quiet (json_data : json) :
  Forall (fun a => is_quiet a = true) (snd (json_to_event json_data)).
Proof.
  destruct json_data as [| | | | | |d]; simpl; try constructor.
  destruct (negb (dict_contains d "post_type")); simpl.
  { repeat constructor. }
  destruct (event_key d) as [key|]; simpl; [|repeat constructor].
  unfold parse_cascade.
  pose proof (parse_first_quiet (get_event_model key) (JDict d)) as Hq.
  destruct (parse_first (get_event_model key) (JDict d)) as [[e|] logs];
    simpl in *; [exact Hq|].
  destruct (parse_obj Event (JDict d)); simpl; [exact Hq|].
  apply Forall_app. split; [exact Hq | repeat constructor].
Qed.

Lemma quiet_harmless (acts : list act) :
  Forall (fun a => is_quiet a = true) acts ->
  Forall (fun a => is_harmless a = true) acts.
Proof.
  apply List.Forall_impl. intros a Ha. unfold is_harmless. rewrite Ha. reflexivity.
Qed.

Lemma ws_receive_loop_harmless (bot : Bot) (input : list received) :
  Forall (fun a => is_harmless a = true) (snd (ws_receive_loop bot input)).
Proof.
  induction input as [|r rest IH]; simpl; [constructor|].
  destruct r as [data| |]; simpl; try constructor.
  destruct (json_loads data) as [json_data|]; simpl; [|constructor].
  pose proof (json_to_event_quiet json_data) as Hq.
  destruct (json_to_event json_data) as [event0 acts1].
  destruct (ws_receive_loop bot rest) as [r acts3]. simpl in *.
  apply Forall_app. split; [apply quiet_harmless; exact Hq|].
  apply Forall_app. split; [|exact IH].
  destruct event0; repeat constructor.
Qed.

Lemma keyed_insert (bots : gmap string Bot) (b : Bot) :
  keyed_by_identity bots -> keyed_by_identity (<[self_id b := b]> bots).
Proof.
  intros Hk k b'. destruct (decide (self_id b = k)) as [<-|Hne].
  - rewrite lookup_insert_eq. intros [= <-]. reflexivity.
  - rewrite lookup_insert_ne by exact Hne. apply Hk.
Qed.

Lemma keyed_delete (bots : gmap string Bot) (k : string) :
  keyed_by_identity bots -> keyed_by_identity (delete k bots).
Proof.
  intros Hk k' b'. destruct (decide (k = k')) as [<-|Hne].
  - rewrite lookup_delete_eq. discriminate.
  - rewrite lookup_delete_ne by exact Hne. apply Hk.
Qed.

Lemma handle_ws_keyed (bots : gmap string Bot) (websocket : WebSocket) :
  keyed_by_identity bots ->
  keyed_by_identity (snd (fst (_handle_ws bots websocket))).
Proof.
  intros Hk. unfold _handle_ws.
  destruct (nonempty (headers (ws_request websocket) !! "x-self-id")) as [id|];
    [|exact Hk].
  destruct (bots !! id); [exact Hk|].
  destruct (_check_access_token (ws_request websocket)) as [[r|] acts1];
    [exact Hk|].
  simpl. destruct (ws_receive_loop _ (incoming websocket)) as [[| |] acts3];
    simpl.
  - apply (keyed_insert bots {| self_id := id |} Hk).
  - apply keyed_delete, (keyed_insert bots {| self_id := id |} Hk).
  - apply keyed_delete, (keyed_insert bots {| self_id := id |} Hk).
Qed.

Lemma handle_http_keyed (bots : gmap string Bot) (request : Request) :
  keyed_by_identity bots ->
  keyed_by_identity (snd (fst (_handle_http bots request))).
Proof.
  intros Hk. unfold _handle_http.
  destruct (nonempty (headers request !! "x-self-id")) as [id|]; [|exact Hk].
  destruct (_check_signature request) as [[r|] acts1]; [exact Hk|].
  destruct (_check_access_token request) as [[r|] acts2]; [exact Hk|].
  destruct (content request) as [data|]; [|exact Hk].
  destruct (json_loads data) as [json_data|]; [|exact Hk].
  destruct (json_to_event json_data) as [[e|] acts3]; [|exact Hk].
  destruct (bots !! id); [exact Hk|].
  apply (keyed_insert bots {| self_id := id |} Hk).
Qed.

Lemma forward_receive_loop_keyed (url : string) (ws : WebSocket)
  (input : list received) :
  forall (session : option Bot) (bots : gmap string Bot),
    keyed_by_identity bots ->
    keyed_by_identity
      (snd (fst (forward_receive_loop url ws session bots input))).
Proof.
  induction input as [|x rest IH]; intros session bots Hk; simpl;
    [exact Hk|].
  destruct x as [data| |]; simpl; try exact Hk.
  destruct (json_loads data) as [json_data|]; [|exact Hk].
  destruct (json_to_event json_data) as [[e|] acts1].
  - destruct session as [b|].
    + specialize (IH (Some b) bots Hk).
      destruct (forward_receive_loop url ws (Some b) bots rest)
        as [[[r s] m] a]. exact IH.
    + destruct (not_connect e).
      * specialize (IH None bots Hk).
        destruct (forward_receive_loop url ws None bots rest)
          as [[[r s] m] a]. exact IH.
      * simpl.
        set (b := {| self_id := str_of_int (event_self_id e) |}).
        specialize (IH (Some b) _ (keyed_insert bots b Hk)).
        simpl in IH.
        destruct (forward_receive_loop url ws (Some b)
                    (<[str_of_int (event_self_id e) := b]> bots) rest)
          as [[[r s] m] a]. exact IH.
  - specialize (IH session bots Hk).
    destruct (forward_receive_loop url ws session bots rest)
      as [[[r s] m] a]. exact IH.
Qed.

Lemma forward_finally_keyed (session : option Bot) (bots : gmap string Bot) :
  keyed_by_identity bots ->
  keyed_by_identity (snd (fst (forward_finally session bots))).
Proof.
  intros Hk. destruct session as [b|]; simpl; [|exact Hk].
  apply keyed_delete, Hk.
Qed.

Lemma forward_loop_keyed (url : string) (attempts : list connect_result) :
  forall (session : option Bot) (bots : gmap string Bot),
    keyed_by_identity bots ->
    keyed_by_identity (snd (fst (forward_loop url session bots attempts))).
Proof.
  induction attempts as [|x rest IH]; intros session bots Hk; simpl;
    [exact Hk|].
  destruct x as [|ws].
  - specialize (IH session bots Hk).
    destruct (forward_loop url session bots rest) as [[r m] a]. exact IH.
  - pose proof (forward_receive_loop_keyed url ws (incoming ws) session bots Hk)
      as Hloop.
    destruct (forward_receive_loop url ws session bots (incoming ws))
      as [[[r s] m] a]. simpl in Hloop.
    pose proof (forward_finally_keyed s m Hloop) as Hfin.
    destruct (forward_finally s m) as [[s2 m2] a2]. simpl in Hfin.
    destruct r; simpl; [exact Hloop| |exact Hfin].
    specialize (IH s2 m2 Hfin).
    destruct (forward_loop url s2 m2 rest) as [[r' m'] a']. exact IH.
Qed.

(** The WebSocket server tests the identity before it registers:
    while a session is registered for identity A, a handshake that
    presents A is refused, the socket closed with code 1008, nothing
    else done and [self.bots] the very map it was. *)
Lemma handle_ws_duplicate_refused (bots : gmap string Bot)
  (websocket : WebSocket) (A : string) (b : Bot) :
  headers (ws_request websocket) !! "x-self-id" = Some A ->
  bots !! A = Some b ->
  exists line reason,
    _handle_ws bots websocket
    = (Refused, bots, [Log "WARNING" line; WsClose (Some 1008) (Some reason)]).
Proof.
  intros Hid Hb. unfold _handle_ws. rewrite Hid.
  destruct (nonempty (Some A)) as [id|] eqn:Hne.
  - apply nonempty_Some in Hne as [[= <-] _]. rewrite Hb.
    do 2 eexists. reflexivity.
  - do 2 eexists. reflexivity.
Qed.

(** The forward loop does not: the identifying event registers its
    session whatever [self.bots] holds, over an entry of the same
    identity if there is one, and when the connection is lost that
    identity is popped. *)
Lemma forward_registers_without_test (url : string) (ws : WebSocket)
  (bots : gmap string Bot) (data : str_or_bytes) (json_data : json)
  (e : event) (logs : list act) :
  json_loads data = Some json_data ->
  json_to_event json_data = (Some e, logs) ->
  not_connect e = false ->
  let b := {| self_id := str_of_int (event_self_id e) |} in
  forward_receive_loop url ws None bots [Frame data; ReceiveError]
  = (Caught, Some b, <[self_id b := b]> bots,
     logs ++ [BotConnect b; CreateTask b e] ++ forward_on_error url ws)
  /\ forward_finally (Some b) (<[self_id b := b]> bots)
     = (None, delete (self_id b) bots, [BotDisconnect b]).
Proof.
  intros Hload Hevent Hconnect b. split.
  - simpl. rewrite Hload, Hevent, Hconnect. reflexivity.
  - unfold forward_finally, bot_disconnect. rewrite delete_insert_eq.
    reflexivity.
Qed.

Lemma ws_receive_loop_no (f : act -> bool) (bot : Bot) (input : list received) :
  (forall a, is_harmless a = true -> f a = false) ->
  List.filter f (snd (ws_receive_loop bot input)) = [].
Proof.
  intros Hf. apply (filter_none f is_harmless); [|exact Hf].
  apply ws_receive_loop_harmless.
Qed.

Lemma harmless_not_close (a : act) : is_harmless a = true -> is_close a = false.
Proof. destruct a; simpl; intros H; try reflexivity; discriminate. Qed.

Lemma harmless_not_disconnect (a : act) :
  is_harmless a = true -> is_disconnect a = false.
Proof. destruct a; simpl; intros H; try reflexivity; discriminate. Qed.

Lemma harmless_not_connect (a : act) :
  is_harmless a = true -> is_connect a = false.
Proof. destruct a; simpl; intros H; try reflexivity; discriminate. Qed.

Lemma quiet_not_task (a : act) : is_quiet a = true -> is_task a = false.
Proof. destruct a; simpl; intros H; try reflexivity; discriminate. Qed.

Lemma quiet_not_connect (a : act) : is_quiet a = true -> is_connect a = false.
Proof. destruct a; simpl; intros H; try reflexivity; discriminate. Qed.

(** C6. Once the handshake is accepted and the session registered, the
    handler closes the socket and unregisters the session exactly once
    when the receive loop is left, by an exception it catches or by
    one it lets through, and whether or not [close()] raises; as long
    as the loop still awaits a frame it has done neither. *)
Theorem handle_ws_teardown_once (bots : gmap string Bot)
  (websocket : WebSocket) (id : string) :
  nonempty (headers (ws_request websocket) !! "x-self-id") = Some id ->
  bots !! id = None ->
  fst (_check_access_token (ws_request websocket)) = None ->
  let bot := {| self_id := id |} in
  let '(outcome, bots', acts) := _handle_ws bots websocket in
  (fst (ws_receive_loop bot (incoming websocket)) = Awaiting ->
     outcome = Serving
     /\ bots' = <[id := bot]> bots
     /\ List.filter is_close acts = []
     /\ List.filter is_disconnect acts = [])
  /\ (fst (ws_receive_loop bot (incoming websocket)) <> Awaiting ->
       (outcome = Returned \/ outcome = Escaped)
       /\ bots' = bots
       /\ List.filter is_close acts = [WsClose None None]
       /\ List.filter is_disconnect acts = [BotDisconnect bot]
       /\ exists before,
            acts = before ++ [WsClose None None; BotDisconnect bot]).
Proof.
  intros Hid Hfree Htok bot.
  apply check_access_token_pass_silent in Htok.
  unfold _handle_ws. rewrite Hid, Hfree, Htok. fold bot.
  unfold bot_connect, ws_teardown, bot_disconnect, ws_close. simpl.
  pose proof (ws_receive_loop_no is_close bot (incoming websocket)
                harmless_not_close) as Hclose.
  pose proof (ws_receive_loop_no is_disconnect bot (incoming websocket)
                harmless_not_disconnect) as Hdisc.
  destruct (ws_receive_loop bot (incoming websocket)) as [r acts3].
  simpl in *.
  destruct r; simpl; (split; [intros Hr | intros Hr]);
    try discriminate; try (exfalso; apply Hr; reflexivity).
  - repeat split; simpl; assumption.
  - repeat split; simpl.
    + left. reflexivity.
    + apply delete_insert_id. exact Hfree.
    + rewrite !List.filter_app, Hclose. reflexivity.
    + rewrite !List.filter_app, Hdisc. reflexivity.
    + exists ([WsAccept; BotConnect bot] ++ acts3 ++ [ws_error_log id]).
      rewrite <- !app_assoc. reflexivity.
  - repeat split; simpl.
    + right. reflexivity.
    + apply delete_insert_id. exact Hfree.
    + rewrite !List.filter_app, Hclose. reflexivity.
    + rewrite !List.filter_app, Hdisc. reflexivity.
    + exists ([WsAccept; BotConnect bot] ++ acts3).
      rewrite <- !app_assoc. reflexivity.
Qed.

(** *** Payloads that cannot be decoded *)

Lemma json_to_event_failure_logged (d : list (string * json)) :
  dict_contains d "post_type" = true ->
  fst (json_to_event (JDict d)) = None ->
  exists logs,
    json_to_event (JDict d) = (None, logs ++ [failed_to_parse (JDict d)]).
Proof.
  intros Hin Hnone. unfold json_to_event in *. rewrite Hin in *. simpl in *.
  destruct (event_key d) as [key|]; [|exists []; reflexivity].
  unfold parse_cascade in *.
  destruct (parse_first (get_event_model key) (JDict d)) as [[e|] logs];
    [discriminate|].
  destruct (parse_obj Event (JDict d)); [discriminate|].
  exists logs. reflexivity.
Qed.

(** *** The WebSocket client *)

(** Before it is identified, a forward connection registers nothing
    and schedules nothing, whatever it receives short of the
    identifying event. *)
Lemma forward_unidentified_idle (url : string) (ws : WebSocket)
  (bots : gmap string Bot) (input : list received) :
  forallb (fun r => negb (identifies r)) input = true ->
  exists r acts,
    forward_receive_loop url ws None bots input = (r, None, bots, acts)
    /\ List.filter is_task acts = []
    /\ List.filter is_connect acts = [].
Proof.
  induction input as [|x rest IH]; simpl; intros Hno.
  - do 2 eexists. repeat split; reflexivity.
  - apply andb_prop in Hno as [Hx Hrest]. specialize (IH Hrest).
    destruct IH as (r & acts & IH & Htask & Hconn).
    destruct x as [data| |]; simpl in *.
    + destruct (json_loads data) as [json_data|].
      * pose proof (json_to_event_quiet json_data) as Hq.
        destruct (json_to_event json_data) as [[e|] acts1]; simpl in *.
        -- destruct (not_connect e); [|discriminate]. rewrite IH.
           do 2 eexists. split; [reflexivity|].
           rewrite !List.filter_app, Htask, Hconn.
           rewrite (filter_none is_task is_quiet acts1 Hq quiet_not_task).
           rewrite (filter_none is_connect is_quiet acts1 Hq quiet_not_connect).
           split; reflexivity.
        -- rewrite IH. do 2 eexists. split; [reflexivity|].
           rewrite !List.filter_app, Htask, Hconn.
           rewrite (filter_none is_task is_quiet acts1 Hq quiet_not_task).
           rewrite (filter_none is_connect is_quiet acts1 Hq quiet_not_connect).
           split; reflexivity.
      * do 2 eexists. repeat split; reflexivity.
    + do 2 eexists. repeat split; reflexivity.
    + do 2 eexists. repeat split; reflexivity.
Qed.

(** Once identified, the loop keeps its session and [self.bots] and
    schedules a task for every event it decodes. *)
Lemma forward_identified_dispatches (url : string) (ws : WebSocket)
  (b : Bot) (bots : gmap string Bot) (input : list received) :
  exists r acts,
    forward_receive_loop url ws (Some b) bots input = (r, Some b, bots, acts)
    /\ List.filter is_task acts = map (CreateTask b) (decoded_events input)
    /\ List.filter is_connect acts = [].
Proof.
  induction input as [|x rest IH]; simpl.
  - do 2 eexists. repeat split; reflexivity.
  - destruct IH as (r & acts & IH & Htask & Hconn).
    destruct x as [data| |]; simpl.
    + destruct (json_loads data) as [json_data|].
      * pose proof (json_to_event_quiet json_data) as Hq.
        destruct (json_to_event json_data) as [[e|] acts1]; simpl in *;
          rewrite IH; do 2 eexists; (split; [reflexivity|]);
          rewrite !List.filter_app;
          rewrite (filter_none is_task is_quiet acts1 Hq quiet_not_task);
          rewrite (filter_none is_connect is_quiet acts1 Hq quiet_not_connect);
          simpl; rewrite ?Htask, ?Hconn; split; reflexivity.
      * do 2 eexists. repeat split; reflexivity.
    + do 2 eexists. repeat split; reflexivity.
    + do 2 eexists. repeat split; reflexivity.
Qed.

(** The frames before the identifying event, all readable, leave only
    log lines and results handed over. *)
Lemma forward_prefix_skipped (url : string) (ws : WebSocket)
  (bots : gmap string Bot) (pre input : list received) :
  forallb (fun r => readable r && negb (identifies r)) pre = true ->
  exists before,
    forward_receive_loop url ws None bots (pre ++ input)
    = (let '(r, session, bots', acts) :=
         forward_receive_loop url ws None bots input in
       (r, session, bots', before ++ acts))
    /\ Forall (fun a => is_quiet a = true) before.
Proof.
  induction pre as [|x pre IH]; simpl; intros Hpre.
  - exists []. split; [|constructor].
    destruct (forward_receive_loop url ws None bots input) as [[[r s] m] a].
    reflexivity.
  - apply andb_prop in Hpre as [Hx Hpre]. specialize (IH Hpre).
    destruct IH as (before & IH & Hq). apply andb_prop in Hx as [Hread Hid].
    destruct x as [data| |]; simpl in *; try discriminate.
    destruct (json_loads data) as [json_data|]; [|discriminate].
    pose proof (json_to_event_quiet json_data) as Hq1.
    destruct (json_to_event json_data) as [[e|] acts1]; simpl in *.
    + destruct (not_connect e); [|discriminate]. rewrite IH.
      exists (acts1 ++ before). split.
      * destruct (forward_receive_loop url ws None bots input)
          as [[[r s] m] a]. rewrite app_assoc. reflexivity.
      * apply Forall_app. split; assumption.
    + rewrite IH. exists (acts1 ++ before). split.
      * destruct (forward_receive_loop url ws None bots input)
          as [[[r s] m] a]. rewrite app_assoc. reflexivity.
      * apply Forall_app. split; assumption.
Qed.

(** After a connection is lost the outer loop goes on without a
    session: every receive loop under [_forward_ws] starts with [bot]
    being [None]. *)
Lemma forward_loop_connected (url : string) (bots : gmap string Bot)
  (ws : WebSocket) (rest : list connect_result) :
  forward_loop url None bots (Connected ws :: rest)
  = (let '(r, bot1, bots1, acts1) :=
       forward_receive_loop url ws None bots (incoming ws) in
     let opened := OpenWebsocket url forward_headers :: acts1 in
     let '(_, bots2, acts2) := forward_finally bot1 bots1 in
     match r with
     | Awaiting => (Receiving, bots1, opened)
     | Caught =>
         let '(r', bots', acts) := forward_loop url None bots2 rest in
         (r', bots', opened ++ acts2 ++ [Sleep RECONNECT_INTERVAL] ++ acts)
     | Propagated => (Stopped, bots2, opened ++ acts2)
     end).
Proof.
  simpl.
  destruct (forward_receive_loop url ws None bots (incoming ws))
    as [[[r bot1] bots1] acts1].
  destruct bot1 as [b|]; destruct r; reflexivity.
Qed.

(** Frames that [json.loads] reads never end a receive loop: what
    comes after them is processed as if it came first, from the state
    they left. *)
Lemma ws_receive_loop_prefix (bot : Bot) (pre rest : list received) :
  forallb readable pre = true ->
  fst (ws_receive_loop bot pre) = Awaiting
  /\ ws_receive_loop bot (pre ++ rest)
     = (fst (ws_receive_loop bot rest),
        snd (ws_receive_loop bot pre) ++ snd (ws_receive_loop bot rest)).
Proof.
  induction pre as [|x pre IH]; simpl; intros Hpre.
  - split; [reflexivity|]. destruct (ws_receive_loop bot rest). reflexivity.
  - apply andb_prop in Hpre as [Hx Hpre]. destruct (IH Hpre) as [IH1 IH2].
    destruct x as [data| |]; simpl in Hx; try discriminate.
    destruct (json_loads data) as [json_data|]; [|discriminate].
    destruct (json_to_event json_data) as [event0 acts1].
    rewrite IH2.
    destruct (ws_receive_loop bot pre) as [r acts3]. simpl in *.
    split; [exact IH1|]. rewrite <- ?app_assoc; simpl; rewrite <- ?app_assoc; reflexivity.
Qed.

Lemma forward_receive_loop_prefix (url : string) (ws : WebSocket)
  (pre : list received) :
  forallb readable pre = true ->
  forall (session : option Bot) (bots : gmap string Bot),
  exists session1 bots1 acts1,
    forward_receive_loop url ws session bots pre
    = (Awaiting, session1, bots1, acts1)
    /\ forall rest,
         forward_receive_loop url ws session bots (pre ++ rest)
         = (let '(r, session', bots', acts) :=
              forward_receive_loop url ws session1 bots1 rest in
            (r, session', bots', acts1 ++ acts)).
Proof.
  induction pre as [|x pre IH]; simpl; intros Hpre session bots.
  - exists session, bots, []. split; [reflexivity|]. intros rest.
    destruct (forward_receive_loop url ws session bots rest) as [[[r s] m] a].
    reflexivity.
  - apply andb_prop in Hpre as [Hx Hpre].
    destruct x as [data| |]; simpl in Hx; try discriminate.
    destruct (json_loads data) as [json_data|]; [|discriminate].
    destruct (json_to_event json_data) as [[e|] acts1].
    + destruct session as [b|].
      * destruct (IH Hpre (Some b) bots) as (s1 & m1 & a1 & Hloop & Hrest).
        exists s1, m1, (acts1 ++ [CreateTask b e] ++ a1). rewrite Hloop.
        split; [reflexivity|]. intros rest. rewrite Hrest.
        destruct (forward_receive_loop url ws s1 m1 rest) as [[[r s] m] a].
        rewrite <- ?app_assoc; simpl; rewrite <- ?app_assoc; reflexivity.
      * destruct (not_connect e).
        -- destruct (IH Hpre None bots) as (s1 & m1 & a1 & Hloop & Hrest).
           exists s1, m1, (acts1 ++ a1). rewrite Hloop.
           split; [reflexivity|]. intros rest. rewrite Hrest.
           destruct (forward_receive_loop url ws s1 m1 rest) as [[[r s] m] a].
           rewrite <- ?app_assoc; simpl; rewrite <- ?app_assoc; reflexivity.
        -- simpl.
           set (b := {| self_id := str_of_int (event_self_id e) |}).
           destruct (IH Hpre (Some b) (<[self_id b := b]> bots))
             as (s1 & m1 & a1 & Hloop & Hrest).
           simpl in Hloop, Hrest.
           exists s1, m1, (acts1 ++ [BotConnect b; CreateTask b e] ++ a1).
           rewrite Hloop. split; [rewrite <- ?app_assoc; reflexivity|].
           intros rest. rewrite Hrest.
           destruct (forward_receive_loop url ws s1 m1 rest) as [[[r s] m] a].
           rewrite <- ?app_assoc; simpl; rewrite <- ?app_assoc; reflexivity.
    + destruct (IH Hpre session bots) as (s1 & m1 & a1 & Hloop & Hrest).
      exists s1, m1, (acts1 ++ a1). rewrite Hloop.
      split; [reflexivity|]. intros rest. rewrite Hrest.
      destruct (forward_receive_loop url ws s1 m1 rest) as [[[r s] m] a].
      rewrite <- ?app_assoc; simpl; rewrite <- ?app_assoc; reflexivity.
Qed.

(** C7, as the code has it. A payload that [json.loads] reads but that
    no class takes, not even [Event], is logged with the raw payload
    and dropped, and both receive loops go on with the next frame, the
    session and [self.bots] as they were. A frame that [json.loads]
    cannot read ends the connection instead, wherever it comes in the
    stream, and the frames after it are not processed. The handler
    of the WebSocket server logs an error line that names the bot and
    not the payload, closes the socket, unregisters the session and
    returns. The forward loop closes the socket, logs an error line
    that names the address and not the payload, unregisters the
    session if it had one, sleeps the reconnect interval and goes on
    with its next attempt. *)
Theorem undecodable_payload_keeps_connection (url : string) (ws : WebSocket)
  (bot : Bot) (session : option Bot) (bots : gmap string Bot)
  (rest : list received) :
  (forall data d,
     json_loads data = Some (JDict d) ->
     dict_contains d "post_type" = true ->
     fst (json_to_event (JDict d)) = None ->
     exists logs,
       json_to_event (JDict d) = (None, logs ++ [failed_to_parse (JDict d)])
       /\ ws_receive_loop bot (Frame data :: rest)
          = (fst (ws_receive_loop bot rest),
             (logs ++ [failed_to_parse (JDict d)])
               ++ snd (ws_receive_loop bot rest))
       /\ forward_receive_loop url ws session bots (Frame data :: rest)
          = (let '(r, session', bots', acts) :=
               forward_receive_loop url ws session bots rest in
             (r, session', bots',
              (logs ++ [failed_to_parse (JDict d)]) ++ acts)))
  /\ (forall data,
        json_loads data = None ->
        ws_receive_loop bot (Frame data :: rest) = (Caught, [])
        /\ forward_receive_loop url ws session bots (Frame data :: rest)
           = (Caught, session, bots,
              [WsClose None None; forward_error_log url]))
  /\ (forall (websocket : WebSocket) (id : string) pre data post,
        nonempty (headers (ws_request websocket) !! "x-self-id") = Some id ->
        bots !! id = None ->
        fst (_check_access_token (ws_request websocket)) = None ->
        incoming websocket = pre ++ Frame data :: post ->
        forallb readable pre = true ->
        json_loads data = None ->
        let b := {| self_id := id |} in
        fst (ws_receive_loop b pre) = Awaiting
        /\ _handle_ws bots websocket
           = (Returned, bots,
              [WsAccept; BotConnect b]
                ++ snd (ws_receive_loop b pre)
                ++ [Log "ERROR"
                      ("<r><bg #f8bbd0>Error while process data from websocketfor bot "
                         +:+ escape_tag id +:+ ".</bg #f8bbd0></r>");
                    WsClose None None;
                    BotDisconnect b]))
  /\ (forall (socket : WebSocket) pre data post attempts,
        incoming socket = pre ++ Frame data :: post ->
        forallb readable pre = true ->
        json_loads data = None ->
        exists session1 bots1 acts1,
          forward_receive_loop url socket None bots pre
          = (Awaiting, session1, bots1, acts1)
          /\ _forward_ws url bots (Connected socket :: attempts)
             = (let '(_, bots2, acts2) := forward_finally session1 bots1 in
                let '(state, bots', acts) := _forward_ws url bots2 attempts in
                (state, bots',
                 OpenWebsocket url forward_headers
                   :: acts1
                   ++ [WsClose None None;
                       Log "ERROR"
                         ("<r><bg #f8bbd0>Error while process data from websocket"
                            +:+ escape_tag url
                            +:+ ". Trying to reconnect...</bg #f8bbd0></r>")]
                   ++ acts2 ++ [Sleep RECONNECT_INTERVAL] ++ acts))).
Proof.
  split; [|split; [|split]].
  - intros data d Hload Hin Hnone.
    destruct (json_to_event_failure_logged d Hin Hnone) as [logs Hlogs].
    exists logs. split; [exact Hlogs|]. simpl. rewrite Hload, Hlogs. split.
    + destruct (ws_receive_loop bot rest) as [r acts3]. reflexivity.
    + reflexivity.
  - intros data Hload. simpl. rewrite Hload. split; reflexivity.
  - intros websocket id pre data post Hid Hfree Htok Hin Hpre Hload b.
    destruct (ws_receive_loop_prefix b pre (Frame data :: post) Hpre)
      as [Hwait Hloop].
    split; [exact Hwait|].
    apply check_access_token_pass_silent in Htok.
    unfold _handle_ws. rewrite Hid, Hfree, Htok, Hin. fold b.
    rewrite Hloop. simpl. rewrite Hload. simpl.
    unfold ws_teardown, bot_disconnect, ws_close. simpl.
    rewrite (delete_insert_id bots id b Hfree), app_nil_r.
    rewrite <- ?app_assoc; simpl; rewrite <- ?app_assoc; reflexivity.
  - intros socket pre data post attempts Hin Hpre Hload.
    destruct (forward_receive_loop_prefix url socket pre Hpre None bots)
      as (session1 & bots1 & acts1 & Hwait & Hloop).
    exists session1, bots1, acts1. split; [exact Hwait|].
    unfold _forward_ws. rewrite forward_loop_connected, Hin, Hloop.
    simpl. rewrite Hload.
    unfold forward_on_error, ws_close. simpl.
    destruct (forward_finally session1 bots1) as [[s2 bots2] acts2].
    destruct (forward_loop url None bots2 attempts) as [[state bots'] acts].
    rewrite <- ?app_assoc; simpl; rewrite <- ?app_assoc; reflexivity.
Qed.

(** C4. On a forward connection nothing is scheduled and no session is
    registered as long as no received event is a lifecycle event with
    [sub_type] connect. When one arrives, a session is created under
    the text of its [self_id] and registered, and that event and every
    event decoded after it on the connection are scheduled for that
    session. A failed or lost connection is followed by a new attempt
    that starts without a session. *)
Theorem forward_identification_gate (url : string) (ws : WebSocket)
  (bots : gmap string Bot) :
  (forall input,
     forallb (fun r => negb (identifies r)) input = true ->
     exists r acts,
       forward_receive_loop url ws None bots input = (r, None, bots, acts)
       /\ List.filter is_task acts = []
       /\ List.filter is_connect acts = [])
  /\ (forall pre data json_data e logs post,
        forallb (fun r => readable r && negb (identifies r)) pre = true ->
        json_loads data = Some json_data ->
        json_to_event json_data = (Some e, logs) ->
        not_connect e = false ->
        let b := {| self_id := str_of_int (event_self_id e) |} in
        exists r before after,
          forward_receive_loop url ws None bots (pre ++ Frame data :: post)
          = (r, Some b, <[self_id b := b]> bots,
             before ++ [BotConnect b; CreateTask b e] ++ after)
          /\ List.filter is_task before = []
          /\ List.filter is_connect before = []
          /\ List.filter is_task after
             = map (CreateTask b) (decoded_events post)
          /\ List.filter is_connect after = [])
  /\ (forall session bots', fst (fst (forward_finally session bots')) = None)
  /\ (forall attempts,
        _forward_ws url bots (ConnectError :: attempts)
        = (let '(r, bots', acts) := _forward_ws url bots attempts in
           (r, bots',
            [OpenWebsocket url forward_headers; forward_setup_log url;
             Sleep RECONNECT_INTERVAL] ++ acts)))
  /\ (forall attempts,
        _forward_ws url bots (Connected ws :: attempts)
        = (let '(r, bot1, bots1, acts1) :=
             forward_receive_loop url ws None bots (incoming ws) in
           let opened := OpenWebsocket url forward_headers :: acts1 in
           let '(_, bots2, acts2) := forward_finally bot1 bots1 in
           match r with
           | Awaiting => (Receiving, bots1, opened)
           | Caught =>
               let '(r', bots', acts) := _forward_ws url bots2 attempts in
               (r', bots',
                opened ++ acts2 ++ [Sleep RECONNECT_INTERVAL] ++ acts)
           | Propagated => (Stopped, bots2, opened ++ acts2)
           end)).
Proof.
  split; [|split; [|split; [|split]]].
  - intros input. apply forward_unidentified_idle.
  - intros pre data json_data e logs post Hpre Hload Hevent Hconnect b.
    destruct (forward_prefix_skipped url ws bots pre (Frame data :: post) Hpre)
      as (before & -> & Hq).
    simpl. rewrite Hload, Hevent, Hconnect. fold b.
    destruct (forward_identified_dispatches url ws b (<[self_id b := b]> bots)
                post) as (r & acts & Hloop & Htask & Hconn).
    simpl in Hloop. unfold bot_connect. simpl. rewrite Hloop.
    pose proof (json_to_event_quiet json_data) as Hlogs.
    rewrite Hevent in Hlogs. simpl in Hlogs.
    exists r, (before ++ logs), acts. split.
    + rewrite <- !app_assoc. reflexivity.
    + rewrite !List.filter_app.
      rewrite (filter_none is_task is_quiet before Hq quiet_not_task).
      rewrite (filter_none is_connect is_quiet before Hq quiet_not_connect).
      rewrite (filter_none is_task is_quiet logs Hlogs quiet_not_task).
      rewrite (filter_none is_connect is_quiet logs Hlogs quiet_not_connect).
      repeat split; assumption.
  - intros [b'|] bots'; reflexivity.
  - intros attempts. reflexivity.
  - intros attempts. apply forward_loop_connected.
Qed.

(** ** Further properties of the handlers *)

Definition is_log (a : act) : bool :=
  match a with Log _ _ => true | _ => false end.

Definition is_accept (a : act) : bool :=
  match a with WsAccept => true | _ => false end.

Definition is_result (a : act) : bool :=
  match a with AddResult _ => true | _ => false end.

(** *** The token check *)

Lemma check_access_token_reject_shape (request : Request) (r : Response) :
  fst (_check_access_token request) = Some r ->
  exists msg,
    r = mkResponse 403 (Some msg)
    /\ snd (_check_access_token request) = [Log "WARNING" msg].
Proof.
  unfold _check_access_token.
  destruct (nonempty (access_token onebot_config)); [|discriminate].
  destruct (negb _); [|discriminate].
  simpl. intros [= <-]. eexists. split; reflexivity.
Qed.

(** X1. The token check lets a request through exactly when no token is
    configured or the bearer token of the request is the configured
    one. Every rejection is a 403 whose text, also logged as a
    warning, tells a missing token from a wrong one. *)
Theorem check_access_token_accepts_iff (request : Request) :
  let token := get_auth_bearer (headers request !! "authorization") in
  (fst (_check_access_token request) = None
   <-> (forall expected, nonempty (access_token onebot_config) = Some expected ->
                         token = Some expected))
  /\ (forall r, fst (_check_access_token request) = Some r ->
        let msg := match nonempty token with
                   | Some _ => "Authorization Header is invalid"
                   | None => "Missing Authorization Header"
                   end in
        r = mkResponse 403 (Some msg)
        /\ snd (_check_access_token request) = [Log "WARNING" msg]).
Proof.
  intros token. unfold _check_access_token. fold token.
  destruct (nonempty (access_token onebot_config)) as [expected|].
  - destruct (decide (Some expected = token)) as [Heq|Hne].
    + rewrite bool_decide_eq_true_2 by exact Heq. simpl. split.
      * split; [|reflexivity]. intros _ e [= <-]. symmetry. exact Heq.
      * intros r Hr. discriminate.
    + rewrite bool_decide_eq_false_2 by exact Hne. simpl. split.
      * split; [discriminate|]. intros H. exfalso. apply Hne.
        symmetry. apply H. reflexivity.
      * intros r [= <-]. split; reflexivity.
  - simpl. split.
    + split; [|reflexivity]. intros _ e He. discriminate.
    + intros r Hr. discriminate.
Qed.

(** *** The handshake of the WebSocket server *)

(** X2. The handshake is refused exactly when the identity header is
    missing or empty, or the identity is already registered, or the
    token check fails. A refusal leaves [self.bots] as it was and,
    log lines apart, does one thing: it closes the socket with code
    1008. Otherwise the socket is accepted and a session for the
    identity of the header is registered before any frame is read. *)
Theorem handle_ws_handshake (bots : gmap string Bot) (websocket : WebSocket) :
  let request := ws_request websocket in
  let '(outcome, bots', acts) := _handle_ws bots websocket in
  (outcome = Refused
   <-> (nonempty (headers request !! "x-self-id") = None
        \/ (exists id b, nonempty (headers request !! "x-self-id") = Some id
                        /\ bots !! id = Some b)
        \/ fst (_check_access_token request) <> None))
  /\ (outcome = Refused ->
      bots' = bots
      /\ exists reason,
          List.filter (fun a => negb (is_log a)) acts
          = [WsClose (Some 1008) reason])
  /\ (outcome <> Refused ->
      exists id rest,
        nonempty (headers request !! "x-self-id") = Some id
        /\ bots !! id = None
        /\ acts = WsAccept :: BotConnect {| self_id := id |} :: rest
        /\ List.filter is_accept rest = []
        /\ List.filter is_connect rest = []).
Proof.
  intros request. unfold _handle_ws. fold request.
  destruct (nonempty (headers request !! "x-self-id")) as [id|] eqn:Hid.
  2: { simpl. split; [|split].
       - split; [auto | reflexivity].
       - intros _. split; [reflexivity|]. eexists. reflexivity.
       - intros H. exfalso. apply H. reflexivity. }
  destruct (bots !! id) as [b|] eqn:Hb.
  { simpl. split; [|split].
    - split; [|reflexivity]. intros _. right. left. exists id, b. auto.
    - intros _. split; [reflexivity|]. eexists. reflexivity.
    - intros H. exfalso. apply H. reflexivity. }
  destruct (_check_access_token request) as [[r|] acts1] eqn:Htok.
  { destruct (check_access_token_reject_shape request r)
      as (msg & -> & Hlog).
    { rewrite Htok. reflexivity. }
    rewrite Htok in Hlog. simpl in Hlog. subst acts1. simpl.
    split; [|split].
    - split; [|reflexivity]. intros _. right. right. discriminate.
    - intros _. split; [reflexivity|]. eexists. reflexivity.
    - intros H. exfalso. apply H. reflexivity. }
  pose proof (check_access_token_pass_silent request) as Hpass.
  rewrite Htok in Hpass. specialize (Hpass eq_refl).
  injection Hpass as ->.
  unfold bot_connect, ws_teardown, bot_disconnect, ws_close. simpl.
  pose proof (ws_receive_loop_no is_connect {| self_id := id |}
                (incoming websocket) harmless_not_connect) as Hconn.
  assert (Hacc : List.filter is_accept
                   (snd (ws_receive_loop {| self_id := id |}
                           (incoming websocket))) = []).
  { apply ws_receive_loop_no. intros a. destruct a; simpl; intros H;
      try reflexivity; discriminate. }
  destruct (ws_receive_loop {| self_id := id |} (incoming websocket))
    as [r acts3]. simpl in *.
  assert (Hcond : ~ (None = Some id :> option string
                     \/ (exists i b, Some id = Some i /\ bots !! i = Some b)
                     \/ (None : option Response) <> None)).
  { intros [H|[(i & b & H & Hb')|H]].
    - discriminate.
    - injection H as <-. rewrite Hb in Hb'. discriminate.
    - apply H. reflexivity. }
  destruct r; simpl; (split; [|split]).
  all: try (split; [discriminate | intros H; exfalso; apply Hcond;
                                   destruct H as [H|[H|H]];
                                   [discriminate | right; left; exact H
                                   | right; right; exact H]]).
  all: try discriminate.
  all: intros _; exists id; eexists; split; [reflexivity|];
    split; [exact Hb|]; split; [reflexivity|];
    rewrite ?List.filter_app, ?Hacc, ?Hconn; split; reflexivity.
Qed.

(** *** Dispatch on the WebSocket server *)

Lemma ws_receive_loop_tasks (bot : Bot) (input : list received) :
  List.filter is_task (snd (ws_receive_loop bot input))
  = map (CreateTask bot) (decoded_events input).
Proof.
  induction input as [|x rest IH]; simpl; [reflexivity|].
  destruct x as [data| |]; simpl; try reflexivity.
  destruct (json_loads data) as [json_data|]; simpl; [|reflexivity].
  pose proof (json_to_event_quiet json_data) as Hq.
  destruct (json_to_event json_data) as [[e|] acts1];
    destruct (ws_receive_loop bot rest) as [r acts3]; simpl in *;
    rewrite !List.filter_app,
      (filter_none is_task is_quiet acts1 Hq quiet_not_task); simpl;
    rewrite IH; reflexivity.
Qed.

(** X3. On the WebSocket server every event decoded from the frames, up
    to the frame or error that ends the loop, is scheduled for the
    session of the header identity, in the order received and from the
    first frame on; a refused handshake schedules nothing. *)
Theorem handle_ws_dispatches_in_order (bots : gmap string Bot)
  (websocket : WebSocket) :
  let '(outcome, _, acts) := _handle_ws bots websocket in
  (outcome = Refused -> List.filter is_task acts = [])
  /\ (outcome <> Refused ->
      exists id,
        nonempty (headers (ws_request websocket) !! "x-self-id") = Some id
        /\ List.filter is_task acts
           = map (CreateTask {| self_id := id |})
               (decoded_events (incoming websocket))).
Proof.
  unfold _handle_ws.
  destruct (nonempty (headers (ws_request websocket) !! "x-self-id"))
    as [id|]; simpl.
  2: { split; [reflexivity | intros H; exfalso; apply H; reflexivity]. }
  destruct (bots !! id); simpl.
  { split; [reflexivity | intros H; exfalso; apply H; reflexivity]. }
  destruct (_check_access_token (ws_request websocket)) as [[r|] acts1] eqn:Htok.
  { destruct (check_access_token_reject_shape (ws_request websocket) r)
      as (msg & _ & Hlog); [rewrite Htok; reflexivity|].
    rewrite Htok in Hlog. simpl in Hlog. subst acts1. simpl.
    split; [reflexivity | intros H; exfalso; apply H; reflexivity]. }
  pose proof (check_access_token_pass_silent (ws_request websocket)) as Hpass.
  rewrite Htok in Hpass. specialize (Hpass eq_refl). injection Hpass as ->.
  unfold bot_connect, ws_teardown, bot_disconnect, ws_close. simpl.
  pose proof (ws_receive_loop_tasks {| self_id := id |} (incoming websocket))
    as Htasks.
  destruct (ws_receive_loop {| self_id := id |} (incoming websocket))
    as [e acts3]. simpl in Htasks.
  destruct e; simpl; (split; [discriminate|]); intros _; exists id;
    (split; [reflexivity|]); rewrite ?List.filter_app, Htasks; simpl;
    rewrite ?app_nil_r; reflexivity.
Qed.

(** *** Sessions and bodies over HTTP *)

Ltac by_kind :=
  let a := fresh "a" in
  intros a; destruct a; simpl; intros; first [reflexivity | discriminate].

Lemma check_signature_logs (request : Request) :
  Forall (fun a => is_log a = true) (snd (_check_signature request)).
Proof.
  unfold _check_signature.
  destruct (nonempty (secret onebot_config)); [|constructor].
  destruct (nonempty (headers request !! "x-signature"));
    [|repeat constructor].
  destruct (content request); [|constructor].
  destruct (negb _); repeat constructor.
Qed.

Lemma check_access_token_logs (request : Request) :
  Forall (fun a => is_log a = true) (snd (_check_access_token request)).
Proof.
  unfold _check_access_token.
  destruct (nonempty (access_token onebot_config)); [|constructor].
  destruct (negb _); repeat constructor.
Qed.

Lemma json_to_event_other (json_data : json) :
  (is_object json_data = false -> json_to_event json_data = (None, []))
  /\ (forall d, json_data = JDict d -> dict_lookup d "post_type" = None ->
        json_to_event json_data = (None, [AddResult json_data])).
Proof.
  split.
  - destruct json_data; simpl; intros H; first [reflexivity | discriminate].
  - intros d -> Hd. unfold json_to_event, dict_contains. rewrite Hd.
    reflexivity.
Qed.

Lemma quiet_filters (acts : list act) :
  Forall (fun a => is_quiet a = true) acts ->
  List.filter is_task acts = []
  /\ List.filter is_connect acts = []
  /\ List.filter is_disconnect acts = [].
Proof.
  intros Hq. repeat split; apply (filter_none _ is_quiet _ Hq); by_kind.
Qed.

Lemma logs_quiet (acts : list act) :
  Forall (fun a => is_log a = true) acts ->
  Forall (fun a => is_quiet a = true) acts.
Proof. apply List.Forall_impl. by_kind. Qed.

(** X4. Over HTTP a request never removes a session and adds at most the
    one of its header identity. It schedules at most one task, for the
    session registered under the header identity (whatever [self_id]
    the payload carries), and the same request sent again finds that
    session and registers nothing. *)
Theorem handle_http_session_reuse (bots : gmap string Bot) (request : Request) :
  let '(_, bots', acts) := _handle_http bots request in
  List.filter is_disconnect acts = []
  /\ ((bots' = bots /\ List.filter is_connect acts = [])
      \/ (exists id,
            nonempty (headers request !! "x-self-id") = Some id
            /\ bots !! id = None
            /\ bots' = <[id := {| self_id := id |}]> bots
            /\ List.filter is_connect acts = [BotConnect {| self_id := id |}]))
  /\ (List.filter is_task acts = []
      \/ (exists id b e,
            nonempty (headers request !! "x-self-id") = Some id
            /\ bots' !! id = Some b
            /\ List.filter is_task acts = [CreateTask b e]))
  /\ (let '(_, bots'', acts') := _handle_http bots' request in
      bots'' = bots' /\ List.filter is_connect acts' = []).
Proof.
  unfold _handle_http.
  destruct (nonempty (headers request !! "x-self-id")) as [id|]; simpl.
  2: { repeat split; auto. }
  pose proof (quiet_filters _ (logs_quiet _ (check_signature_logs request)))
    as (Ht1 & Hc1 & Hd1).
  destruct (_check_signature request) as [[r1|] acts1]; simpl in *.
  { repeat split; auto. }
  pose proof (quiet_filters _ (logs_quiet _ (check_access_token_logs request)))
    as (Ht2 & Hc2 & Hd2).
  destruct (_check_access_token request) as [[r2|] acts2]; simpl in *.
  { rewrite !List.filter_app, Ht1, Ht2, Hc1, Hc2, Hd1, Hd2.
    repeat split; auto. }
  destruct (content request) as [data|]; simpl.
  2: { rewrite !List.filter_app, Ht1, Ht2, Hc1, Hc2, Hd1, Hd2.
       repeat split; auto. }
  destruct (json_loads data) as [json_data|]; simpl.
  2: { rewrite !List.filter_app, Ht1, Ht2, Hc1, Hc2, Hd1, Hd2.
       repeat split; auto. }
  pose proof (quiet_filters _ (json_to_event_quiet json_data))
    as (Ht3 & Hc3 & Hd3).
  destruct (json_to_event json_data) as [[e|] acts3]; simpl in *.
  2: { rewrite !List.filter_app, Ht1, Ht2, Ht3, Hc1, Hc2, Hc3, Hd1, Hd2, Hd3.
       repeat split; auto. }
  destruct (bots !! id) as [b|] eqn:Hb; simpl.
  - rewrite Hb. simpl.
    rewrite !List.filter_app, Ht1, Ht2, Ht3, Hc1, Hc2, Hc3, Hd1, Hd2, Hd3.
    simpl. repeat split; auto.
    right. exists id, b, e. auto.
  - rewrite lookup_insert_eq. simpl.
    rewrite !List.filter_app, Ht1, Ht2, Ht3, Hc1, Hc2, Hc3, Hd1, Hd2, Hd3.
    simpl. repeat split; auto.
    + right. exists id. auto.
    + right. exists id, {| self_id := id |}, e.
      rewrite lookup_insert_eq. auto.
Qed.

(** X5. What a body does once the three checks have passed: a body that
    is not JSON makes the handler raise with nothing done, and that is
    the only way it raises; a body that is JSON but no object, or an
    object without [post_type], is answered 204 with no task and no
    session, the object being handed to the result store. *)
Theorem handle_http_bodies (bots : gmap string Bot) (request : Request) :
  (fst (fst (_handle_http bots request)) = Raises
   <-> exists id data,
         nonempty (headers request !! "x-self-id") = Some id
         /\ fst (_check_signature request) = None
         /\ fst (_check_access_token request) = None
         /\ content request = Some data
         /\ json_loads data = None)
  /\ (fst (fst (_handle_http bots request)) = Raises ->
      _handle_http bots request = (Raises, bots, []))
  /\ (forall id data json_data,
        nonempty (headers request !! "x-self-id") = Some id ->
        fst (_check_signature request) = None ->
        fst (_check_access_token request) = None ->
        content request = Some data ->
        json_loads data = Some json_data ->
        (is_object json_data = false ->
         _handle_http bots request = (Returns (mkResponse 204 None), bots, []))
        /\ (forall d, json_data = JDict d ->
                      dict_lookup d "post_type" = None ->
                      _handle_http bots request
                      = (Returns (mkResponse 204 None), bots,
                         [AddResult json_data]))).
Proof.
  split; [|split].
  - unfold _handle_http.
    destruct (nonempty (headers request !! "x-self-id")) as [id|]; simpl.
    2: { split; [discriminate | intros (i & d & H & _); discriminate]. }
    destruct (_check_signature request) as [[r1|] acts1]; simpl.
    { split; [discriminate | intros (i & d & _ & H & _); discriminate]. }
    destruct (_check_access_token request) as [[r2|] acts2]; simpl.
    { split; [discriminate | intros (i & d & _ & _ & H & _); discriminate]. }
    destruct (content request) as [data|]; simpl.
    2: { split; [discriminate|]. intros (i & d & _ & _ & _ & H & _).
         discriminate. }
    destruct (json_loads data) as [json_data|] eqn:Hload; simpl.
    + split.
      * destruct (json_to_event json_data) as [[e|] acts3]; simpl;
          [destruct (bots !! id)|]; discriminate.
      * intros (i & d & _ & _ & _ & [= <-] & H). rewrite Hload in H.
        discriminate.
    + split; [|reflexivity]. intros _. exists id, data. auto.
  - unfold _handle_http.
    destruct (nonempty (headers request !! "x-self-id")) as [id|]; simpl;
      [|discriminate].
    pose proof (check_signature_pass_silent request) as Hs.
    destruct (_check_signature request) as [[r1|] acts1]; simpl;
      [discriminate|].
    simpl in Hs. injection (Hs eq_refl) as ->.
    pose proof (check_access_token_pass_silent request) as Ht.
    destruct (_check_access_token request) as [[r2|] acts2]; simpl;
      [discriminate|].
    simpl in Ht. injection (Ht eq_refl) as ->.
    destruct (content request) as [data|]; simpl; [|discriminate].
    destruct (json_loads data) as [json_data|]; simpl; [|reflexivity].
    destruct (json_to_event json_data) as [[e|] acts3]; simpl;
      [destruct (bots !! id)|]; discriminate.
  - intros id data json_data Hid Hsig Htok Hdata Hload.
    apply check_signature_pass_silent in Hsig.
    apply check_access_token_pass_silent in Htok.
    unfold _handle_http. rewrite Hid, Hsig, Htok, Hdata, Hload. split.
    + intros Hobj.
      rewrite (proj1 (json_to_event_other json_data) Hobj).
      reflexivity.
    + intros d Hd Hpost.
      rewrite (proj2 (json_to_event_other json_data) d Hd Hpost).
      reflexivity.
Qed.

Ltac rejected :=
  simpl; repeat split; auto; try discriminate; repeat constructor.

(** X6. A response other than 204 is a rejection: its status is 400, 401
    or 403 and it carries a text; [self.bots] is as it was and the
    handler did nothing but log, at most one line, so the body of a
    rejected request is never decoded and never reaches the result
    store. *)
Theorem handle_http_rejection_only_logs (bots : gmap string Bot)
  (request : Request) (r : Response) :
  fst (fst (_handle_http bots request)) = Returns r ->
  status_code r <> 204 ->
  (status_code r = 400 \/ status_code r = 401 \/ status_code r = 403)
  /\ response_content r <> None
  /\ snd (fst (_handle_http bots request)) = bots
  /\ Forall (fun a => is_log a = true) (snd (_handle_http bots request))
  /\ (length (snd (_handle_http bots request)) <= 1)%nat.
Proof.
  unfold _handle_http.
  destruct (nonempty (headers request !! "x-self-id")) as [id|]; simpl.
  2: { intros [= <-] _. rejected. }
  unfold _check_signature.
  destruct (nonempty (secret onebot_config)) as [key|]; simpl.
  - destruct (nonempty (headers request !! "x-signature")) as [given|]; simpl.
    2: { intros [= <-] _. rejected. }
    destruct (content request) as [body|] eqn:Hbody; simpl.
    2: { intros [= <-] _. rejected. }
    destruct (negb _); simpl.
    { intros [= <-] _. rejected. }
    destruct (_check_access_token request) as [[r2|] acts2] eqn:Htok; simpl.
    { destruct (check_access_token_reject_shape request r2)
        as (msg & -> & Hlog); [rewrite Htok; reflexivity|].
      rewrite Htok in Hlog. simpl in Hlog. subst acts2.
      intros [= <-] _. rejected. }
    destruct (json_loads body) as [json_data|]; simpl; [|discriminate].
    destruct (json_to_event json_data) as [[e|] acts3]; simpl;
      [destruct (bots !! id); simpl|];
      intros [= <-] H; exfalso; apply H; reflexivity.
  - destruct (_check_access_token request) as [[r2|] acts2] eqn:Htok; simpl.
    { destruct (check_access_token_reject_shape request r2)
        as (msg & -> & Hlog); [rewrite Htok; reflexivity|].
      rewrite Htok in Hlog. simpl in Hlog. subst acts2.
      intros [= <-] _. rejected. }
    destruct (content request) as [body|]; simpl.
    2: { intros [= <-] H. exfalso. apply H. reflexivity. }
    destruct (json_loads body) as [json_data|]; simpl; [|discriminate].
    destruct (json_to_event json_data) as [[e|] acts3]; simpl;
      [destruct (bots !! id); simpl|];
      intros [= <-] H; exfalso; apply H; reflexivity.
Qed.

(** *** What the decoder logs and hands over *)

Definition is_error (a : act) : bool :=
  match a with Log level _ => String.eqb level "ERROR" | _ => false end.

Lemma parse_first_debug_only (models : list model) (json_data : json) :
  Forall (fun a => is_log a = true /\ is_error a = false)
    (snd (parse_first models json_data)).
Proof.
  induction models as [|m rest IH]; simpl; [constructor|].
  destruct (parse_obj m json_data); simpl; [constructor|].
  destruct (parse_first rest json_data) as [r logs]. simpl in *.
  constructor; [split; reflexivity | exact IH].
Qed.

(** X7. The decoder hands a value to the result store exactly when it is
    an object without [post_type], and then once. An event only comes
    from an object that has a [post_type], and a decoding that gives
    an event writes no error line; an object with a [post_type] that
    gives no event writes exactly one, the last thing it does. *)
Theorem json_to_event_logs_and_results (json_data : json) :
  List.filter is_result (snd (json_to_event json_data))
  = match json_data with
    | JDict d =>
        if dict_contains d "post_type" then [] else [AddResult json_data]
    | _ => []
    end
  /\ (forall e, fst (json_to_event json_data) = Some e ->
        (exists d, json_data = JDict d /\ dict_contains d "post_type" = true)
        /\ List.filter is_error (snd (json_to_event json_data)) = [])
  /\ (forall d, json_data = JDict d -> dict_contains d "post_type" = true ->
        fst (json_to_event json_data) = None ->
        List.filter is_error (snd (json_to_event json_data))
        = [failed_to_parse json_data]
        /\ exists logs,
             snd (json_to_event json_data)
             = logs ++ [failed_to_parse json_data]).
Proof.
  assert (Hdebug : forall models j,
             List.filter is_error (snd (parse_first models j)) = []
             /\ List.filter is_result (snd (parse_first models j)) = []).
  { intros models j. pose proof (parse_first_debug_only models j) as H.
    split.
    - apply (filter_none is_error
               (fun a => is_log a && negb (is_error a))).
      + eapply List.Forall_impl; [|exact H]. intros a [-> ->]. reflexivity.
      + intros a Ha. apply andb_prop in Ha as [_ Ha].
        destruct (is_error a); [discriminate | reflexivity].
    - apply (filter_none is_result is_log).
      + eapply List.Forall_impl; [|exact H]. intros a [Ha _]. exact Ha.
      + by_kind. }
  destruct json_data as [| | | | | |d]; simpl;
    try (split; [reflexivity|]; split; [discriminate|];
         intros d Hd; discriminate).
  destruct (dict_contains d "post_type") eqn:Hin; simpl.
  2: { split; [reflexivity|]. split; [discriminate|].
       intros d' [= <-] Hd'. rewrite Hin in Hd'. discriminate. }
  destruct (event_key d) as [key|]; simpl.
  2: { split; [reflexivity|]. split; [discriminate|].
       intros d' _ _ _. split; [reflexivity|]. exists []. reflexivity. }
  unfold parse_cascade.
  destruct (Hdebug (get_event_model key) (JDict d)) as [Herr Hres].
  destruct (parse_first (get_event_model key) (JDict d)) as [[e|] logs];
    simpl in *.
  { split; [exact Hres|]. split.
    - intros e' _. split; [eauto | exact Herr].
    - intros d' _ _ Hnone. discriminate. }
  destruct (parse_obj Event (JDict d)) as [e|]; simpl.
  { split; [exact Hres|]. split.
    - intros e' _. split; [eauto | exact Herr].
    - intros d' _ _ Hnone. discriminate. }
  rewrite !List.filter_app, Hres, Herr. simpl.
  split; [reflexivity|]. split; [discriminate|].
  intros d' _ _ _. split; [reflexivity|]. exists logs. reflexivity.
Qed.

(** *** The forward loop over its connections *)

Definition is_open (a : act) : bool :=
  match a with OpenWebsocket _ _ => true | _ => false end.

Definition is_sleep (a : act) : bool :=
  match a with Sleep _ => true | _ => false end.

(** What a receive loop of a forward connection may do. *)
Definition in_connection (a : act) : bool :=
  is_harmless a || is_connect a || is_close a.

(** [self.bots] once the sessions [bs] have been unregistered. *)
Definition unregister (bots : gmap string Bot) (bs : list Bot)
  : gmap string Bot :=
  fold_left (fun m b => delete (self_id b) m) bs bots.

Lemma forward_receive_loop_kinds (url : string) (ws : WebSocket)
  (input : list received) :
  forall (session : option Bot) (bots : gmap string Bot),
    Forall (fun a => in_connection a = true)
      (snd (forward_receive_loop url ws session bots input)).
Proof.
  assert (Hq : forall acts : list act,
             Forall (fun a => is_quiet a = true) acts ->
             Forall (fun a => in_connection a = true) acts).
  { intros acts. apply List.Forall_impl. by_kind. }
  induction input as [|x rest IH]; intros session bots; simpl;
    [constructor|].
  destruct x as [data| |]; simpl; try (repeat constructor).
  destruct (json_loads data) as [json_data|]; [|repeat constructor].
  pose proof (Hq _ (json_to_event_quiet json_data)) as H1.
  destruct (json_to_event json_data) as [[e|] acts1]; simpl in H1.
  - destruct session as [b|].
    + specialize (IH (Some b) bots).
      destruct (forward_receive_loop url ws (Some b) bots rest)
        as [[[r s] m] a]. simpl in *.
      apply Forall_app. split; [exact H1|]. constructor; [reflexivity|exact IH].
    + destruct (not_connect e).
      * specialize (IH None bots).
        destruct (forward_receive_loop url ws None bots rest)
          as [[[r s] m] a]. simpl in *.
        apply Forall_app. split; assumption.
      * simpl.
        specialize (IH (Some {| self_id := str_of_int (event_self_id e) |})
                      (<[str_of_int (event_self_id e) :=
                           {| self_id := str_of_int (event_self_id e) |}]> bots)).
        destruct (forward_receive_loop url ws _ _ rest) as [[[r s] m] a].
        simpl in *. apply Forall_app. split; [exact H1|].
        constructor; [reflexivity|]. constructor; [reflexivity|exact IH].
  - specialize (IH session bots).
    destruct (forward_receive_loop url ws session bots rest)
      as [[[r s] m] a]. simpl in *.
    apply Forall_app. split; assumption.
Qed.

Lemma forward_receive_loop_propagated (url : string) (ws : WebSocket)
  (input : list received) :
  forall (session : option Bot) (bots : gmap string Bot),
    fst (fst (fst (forward_receive_loop url ws session bots input)))
    = Propagated ->
    In Cancelled input.
Proof.
  induction input as [|x rest IH]; intros session bots; simpl;
    [discriminate|].
  destruct x as [data| |]; simpl; try discriminate; [|auto].
  destruct (json_loads data) as [json_data|]; [|discriminate].
  destruct (json_to_event json_data) as [[e|] acts1].
  - destruct session as [b|].
    + specialize (IH (Some b) bots).
      destruct (forward_receive_loop url ws (Some b) bots rest)
        as [[[r s] m] a]. simpl in *. auto.
    + destruct (not_connect e).
      * specialize (IH None bots).
        destruct (forward_receive_loop url ws None bots rest)
          as [[[r s] m] a]. simpl in *. auto.
      * simpl.
        specialize (IH (Some {| self_id := str_of_int (event_self_id e) |})
                      (<[str_of_int (event_self_id e) :=
                           {| self_id := str_of_int (event_self_id e) |}]> bots)).
        destruct (forward_receive_loop url ws _ _ rest) as [[[r s] m] a].
        simpl in *. auto.
  - specialize (IH session bots).
    destruct (forward_receive_loop url ws session bots rest)
      as [[[r s] m] a]. simpl in *. auto.
Qed.

(** A receive loop that starts without a session ends without one,
    [self.bots] untouched, or with the one session it registered. *)
Lemma forward_receive_loop_session (url : string) (ws : WebSocket)
  (bots : gmap string Bot) (input : list received) :
  exists r acts,
    (forward_receive_loop url ws None bots input = (r, None, bots, acts)
     /\ List.filter is_connect acts = [])
    \/ (exists b,
          forward_receive_loop url ws None bots input
          = (r, Some b, <[self_id b := b]> bots, acts)
          /\ List.filter is_connect acts = [BotConnect b]).
Proof.
  induction input as [|x rest IH]; simpl.
  - do 2 eexists. left. split; reflexivity.
  - destruct x as [data| |]; simpl;
      try (do 2 eexists; left; split; reflexivity).
    destruct (json_loads data) as [json_data|];
      [|do 2 eexists; left; split; reflexivity].
    pose proof (quiet_filters _ (json_to_event_quiet json_data))
      as (_ & Hc1 & _).
    destruct (json_to_event json_data) as [[e|] acts1]; simpl in Hc1.
    + destruct (not_connect e).
      * destruct IH as (r & acts & [[-> Hc]|(b & -> & Hc)]);
          do 2 eexists; [left | right; exists b];
          (split; [reflexivity|]); rewrite List.filter_app, Hc1, Hc;
          reflexivity.
      * simpl.
        set (b := {| self_id := str_of_int (event_self_id e) |}).
        destruct (forward_identified_dispatches url ws b
                    (<[self_id b := b]> bots) rest)
          as (r & acts & Hloop & _ & Hc).
        simpl in Hloop. rewrite Hloop. do 2 eexists. right. exists b.
        split; [reflexivity|].
        rewrite List.filter_app, Hc1. simpl. rewrite Hc. reflexivity.
    + destruct IH as (r & acts & [[-> Hc]|(b & -> & Hc)]);
        do 2 eexists; [left | right; exists b];
        (split; [reflexivity|]); rewrite List.filter_app, Hc1, Hc;
        reflexivity.
Qed.

Lemma in_connection_filters (acts : list act) :
  Forall (fun a => in_connection a = true) acts ->
  List.filter is_disconnect acts = []
  /\ List.filter is_open acts = []
  /\ List.filter is_sleep acts = [].
Proof.
  intros H. repeat split; apply (filter_none _ in_connection _ H); by_kind.
Qed.

(** X8. Connection attempts that fail one after the other each cost one
    attempt, one error line and one sleep of the reconnect interval,
    leave [self.bots] alone, and are followed by the next attempt,
    which goes as it would have gone at first. *)
Theorem forward_connect_failures (url : string) (bots : gmap string Bot)
  (n : nat) (attempts : list connect_result) :
  _forward_ws url bots (repeat ConnectError n ++ attempts)
  = (let '(state, bots', acts) := _forward_ws url bots attempts in
     (state, bots',
      concat (repeat [OpenWebsocket url forward_headers;
                      forward_setup_log url;
                      Sleep RECONNECT_INTERVAL] n) ++ acts)).
Proof.
  unfold _forward_ws. induction n as [|n IH]; simpl.
  - destruct (forward_loop url None bots attempts) as [[r m] a]. reflexivity.
  - rewrite IH.
    destruct (forward_loop url None bots attempts) as [[r m] a]. reflexivity.
Qed.

(** No [receive()] of the scripted sockets is cancelled. *)
Definition never_cancelled (attempts : list connect_result) : bool :=
  forallb (fun attempt =>
             match attempt with
             | ConnectError => true
             | Connected ws =>
                 forallb (fun r => match r with Cancelled => false | _ => true end)
                   (incoming ws)
             end) attempts.

Lemma forward_receive_loop_caught (url : string) (ws : WebSocket)
  (input : list received) :
  forallb (fun r => match r with Cancelled => false | _ => true end) input
  = true ->
  forall (session : option Bot) (bots : gmap string Bot),
    fst (fst (fst (forward_receive_loop url ws session bots input)))
    <> Propagated.
Proof.
  intros Hno session bots Hprop.
  apply forward_receive_loop_propagated in Hprop.
  rewrite forallb_forall in Hno. specialize (Hno Cancelled Hprop).
  discriminate.
Qed.

(** X9. No exception that [except Exception] catches ends the forward
    loop. As long as nothing is cancelled, whatever attempts fail,
    whatever [receive()] raises and whatever frames arrive, the loop
    is afterwards either receiving on its latest socket or about to
    connect again. When it is about to connect again it has made
    every attempt of the script, each once, and slept the reconnect
    interval after each; when it is receiving it has slept once for
    every attempt before the current one. *)
Theorem forward_loop_survives_exceptions (url : string)
  (bots : gmap string Bot) (attempts : list connect_result) :
  never_cancelled attempts = true ->
  let '(state, _, acts) := _forward_ws url bots attempts in
  state <> Stopped
  /\ (state = Connecting ->
      length (List.filter is_open acts) = length attempts
      /\ length (List.filter is_sleep acts) = length attempts)
  /\ (state = Receiving ->
      length (List.filter is_open acts)
      = S (length (List.filter is_sleep acts))
      /\ (length (List.filter is_open acts) <= length attempts)%nat)
  /\ Forall (fun a => a = Sleep RECONNECT_INTERVAL) (List.filter is_sleep acts).
Proof.
  unfold _forward_ws. revert bots.
  induction attempts as [|x rest IH]; intros bots Hno.
  - simpl. repeat split; auto; discriminate.
  - simpl in Hno. apply andb_prop in Hno as [Hx Hno].
    destruct x as [|ws].
    + simpl. specialize (IH bots Hno).
      destruct (forward_loop url None bots rest) as [[state m] a].
      destruct IH as (Hstop & Hconn & Hrecv & Hsleep). simpl.
      split; [exact Hstop|]. split; [|split].
      * intros H. destruct (Hconn H) as [E1 E2]. split; lia.
      * intros H. destruct (Hrecv H) as [E1 Hle]. split; lia.
      * constructor; [reflexivity | exact Hsleep].
    + rewrite forward_loop_connected.
      pose proof (in_connection_filters _
                    (forward_receive_loop_kinds url ws (incoming ws) None bots))
        as (Hd1 & Ho1 & Hs1).
      pose proof (forward_receive_loop_caught url ws (incoming ws) Hx None bots)
        as Hcaught.
      destruct (forward_receive_loop url ws None bots (incoming ws))
        as [[[r bot1] bots1] acts1]. simpl in Hd1, Ho1, Hs1, Hcaught.
      assert (Hfin : exists bots2 acts2,
                 forward_finally bot1 bots1 = (None, bots2, acts2)
                 /\ List.filter is_open acts2 = []
                 /\ List.filter is_sleep acts2 = []).
      { destruct bot1 as [b|]; simpl; do 2 eexists; repeat split. }
      destruct Hfin as (bots2 & acts2 & -> & Ho2 & Hs2).
      destruct r; [| |exfalso; apply Hcaught; reflexivity].
      * simpl. rewrite Ho1, Hs1. simpl.
        split; [discriminate|]. split; [discriminate|].
        split; [|constructor]. intros _. split; [reflexivity | lia].
      * specialize (IH bots2 Hno).
        destruct (forward_loop url None bots2 rest) as [[state m] a].
        destruct IH as (Hstop & Hconn & Hrecv & Hsleep).
        simpl. rewrite !List.filter_app, Ho1, Ho2, Hs1, Hs2. simpl.
        split; [exact Hstop|]. split; [|split].
        -- intros H. destruct (Hconn H) as [E1 E2]. split; lia.
        -- intros H. destruct (Hrecv H) as [E1 Hle]. split; lia.
        -- constructor; [reflexivity | exact Hsleep].
Qed.

(** X10. The sessions of a forward loop come and go in pairs: each session
    it registers is unregistered when its connection is lost, before
    the next attempt, and only the session of a connection that is
    still receiving stays. Between connections [self.bots] is the map
    the loop started from without the identities it used, so the loop
    leaves nothing behind, and an identity it used is gone even if
    another transport had registered it before. *)
Theorem forward_sessions_balanced (url : string) (bots : gmap string Bot)
  (attempts : list connect_result) :
  let '(state, bots', acts) := _forward_ws url bots attempts in
  exists bs last,
    List.filter is_disconnect acts = map BotDisconnect bs
    /\ List.filter is_connect acts = map BotConnect (bs ++ last)
    /\ (state <> Receiving -> last = [])
    /\ ((last = [] /\ bots' = unregister bots bs)
        \/ (exists b, last = [b]
                      /\ bots' = <[self_id b := b]> (unregister bots bs))).
Proof.
  unfold _forward_ws. revert bots.
  induction attempts as [|x rest IH]; intros bots.
  - simpl. exists [], []. repeat split; auto.
  - destruct x as [|ws].
    + simpl. specialize (IH bots).
      destruct (forward_loop url None bots rest) as [[state m] a].
      destruct IH as (bs & last & Hd & Hc & Hlast & Hbots).
      exists bs, last. simpl. auto.
    + rewrite forward_loop_connected.
      pose proof (in_connection_filters _
                    (forward_receive_loop_kinds url ws (incoming ws) None bots))
        as (Hd1 & _ & _).
      destruct (forward_receive_loop_session url ws bots (incoming ws))
        as (r & acts1 & [[Hloop Hc1]|(b & Hloop & Hc1)]);
        rewrite Hloop in *; simpl in Hd1; simpl forward_finally; cbv iota beta.
      * destruct r.
        -- exists [], []. simpl. rewrite Hd1, Hc1. repeat split; auto.
        -- specialize (IH bots).
           destruct (forward_loop url None bots rest) as [[state m] a].
           destruct IH as (bs & last & Hd & Hc & Hlast & Hbots).
           exists bs, last. simpl.
           rewrite !List.filter_app, Hd1, Hc1. simpl. auto.
        -- exists [], []. simpl. rewrite app_nil_r, Hd1, Hc1.
           repeat split; auto.
      * unfold bot_disconnect. rewrite delete_insert_eq.
        destruct r.
        -- exists [], [b]. simpl. rewrite Hd1, Hc1.
           split; [reflexivity|]. split; [reflexivity|].
           split; [intros H; exfalso; apply H; reflexivity|].
           right. exists b. auto.
        -- specialize (IH (delete (self_id b) bots)).
           destruct (forward_loop url None (delete (self_id b) bots) rest)
             as [[state m] a].
           destruct IH as (bs & last & Hd & Hc & Hlast & Hbots).
           exists (b :: bs), last. simpl.
           rewrite !List.filter_app, Hd1, Hc1. simpl. rewrite Hd, Hc.
           repeat split; auto.
        -- exists [b], []. simpl.
           rewrite !List.filter_app, Hd1, Hc1. simpl.
           repeat split; auto.
Qed.

(** *** Startup *)

(** [URL(url)]: the address as [str(url)] gives it back, [None] when
    the constructor raises. *)
Variable URL : string -> option string.

(** [get_name]. *)
Definition get_name : string := "OneBot V11".

(** What [setup] asks of the driver: an HTTP route served by
    [_handle_http], a WebSocket route served by [_handle_ws], the hook
    [start_forward] to run at startup, or a log line. *)
Inductive setup_action : Type :=
| SetupHttpServer (path method name : string)
| SetupWebsocketServer (path name : string)
| OnStartup
| SetupLog (level msg : string).

(** The driver as [setup] asks about it: the two [isinstance] tests
    and [self.config.driver]. *)
Record Driver : Type := {
  is_ReverseDriver : bool;
  is_ForwardDriver : bool;
  config_driver : string
}.

Definition setup (driver : Driver) : list setup_action :=
  (if is_ReverseDriver driver then
     [SetupHttpServer "/onebot/v11/http" "POST" get_name;
      SetupHttpServer "/onebot/v11/" "POST" get_name;
      SetupWebsocketServer "/onebot/v11/ws" get_name]
   else [])
  ++ match ws_urls onebot_config with
     | [] => []
     | _ :: _ =>
         if negb (is_ForwardDriver driver) then
           [SetupLog "WARNING"
              ("Current driver " +:+ config_driver driver
                 +:+ " don't support forward connections! Ignored")]
         else [OnStartup]
     end.

(** What [start_forward] does for one address after the other: the
    task of a forward loop, or the error line of a bad address. *)
Inductive startup_action : Type :=
| StartForward (ws_url : string)
| StartupLog (level msg : string).

Definition bad_url_log (url : string) : startup_action :=
  StartupLog "ERROR"
    ("<r><bg #f8bbd0>Bad url " +:+ escape_tag url
       +:+ " in onebot forward websocket config</bg #f8bbd0></r>").

Fixpoint start_forward_over (urls : list string) : list startup_action :=
  match urls with
  | [] => []
  | url :: rest =>
      match URL url with
      | Some ws_url => StartForward ws_url
      | None => bad_url_log url
      end :: start_forward_over rest
  end.

Definition start_forward : list startup_action :=
  start_forward_over (ws_urls onebot_config).

(** The hooks [setup] registered, run when the driver starts. *)
Definition on_startup (driver : Driver) : list startup_action :=
  if existsb (fun a => match a with OnStartup => true | _ => false end)
       (setup driver)
  then start_forward else [].

Definition started (a : startup_action) : option string :=
  match a with StartForward ws_url => Some ws_url | StartupLog _ _ => None end.

Definition bad_url (url : string) : bool :=
  match URL url with Some _ => false | None => true end.

Lemma start_forward_over_started (urls : list string) :
  omap started (start_forward_over urls) = omap URL urls
  /\ omap (fun a => match a with
                    | StartupLog _ msg => Some msg
                    | StartForward _ => None
                    end) (start_forward_over urls)
     = map (fun url =>
              "<r><bg #f8bbd0>Bad url " +:+ escape_tag url
                +:+ " in onebot forward websocket config</bg #f8bbd0></r>")
         (List.filter bad_url urls).
Proof.
  induction urls as [|url rest [IH1 IH2]]; simpl; [split; reflexivity|].
  unfold bad_url at 1. destruct (URL url) as [ws_url|]; simpl.
  - split; [f_equal; exact IH1 | exact IH2].
  - split; [exact IH1 | f_equal; exact IH2].
Qed.

(** X11. [start_forward] starts one loop for every configured address that
    [URL] takes, in the order configured, and writes one error line
    for every address it does not take: a bad address stops nothing
    that comes after it. *)
Theorem start_forward_isolates_bad_urls :
  omap started start_forward = omap URL (ws_urls onebot_config)
  /\ omap (fun a => match a with
                    | StartupLog _ msg => Some msg
                    | StartForward _ => None
                    end) start_forward
     = map (fun url =>
              "<r><bg #f8bbd0>Bad url " +:+ escape_tag url
                +:+ " in onebot forward websocket config</bg #f8bbd0></r>")
         (List.filter bad_url (ws_urls onebot_config))
  /\ (forall before after,
        start_forward_over (before ++ after)
        = start_forward_over before ++ start_forward_over after).
Proof.
  split; [apply start_forward_over_started|].
  split; [apply start_forward_over_started|].
  intros before after. induction before as [|url rest IH]; simpl;
    [reflexivity|]. rewrite IH. reflexivity.
Qed.

(** X12. Forward loops are started only on a driver that is a
    [ForwardDriver], and then for every address [URL] takes; on any
    other driver with addresses configured [setup] only warns. The
    three passive routes are set up on a [ReverseDriver] whatever the
    forward addresses are. *)
Theorem setup_then_startup (driver : Driver) :
  omap started (on_startup driver)
  = (if is_ForwardDriver driver then omap URL (ws_urls onebot_config) else [])
  /\ (List.filter (fun a => match a with SetupLog _ _ => true | _ => false end)
        (setup driver) <> []
      <-> ws_urls onebot_config <> [] /\ is_ForwardDriver driver = false)
  /\ List.filter (fun a => match a with
                          | SetupHttpServer _ _ _ | SetupWebsocketServer _ _ =>
                              true
                          | _ => false
                          end) (setup driver)
     = (if is_ReverseDriver driver then
          [SetupHttpServer "/onebot/v11/http" "POST" "OneBot V11";
           SetupHttpServer "/onebot/v11/" "POST" "OneBot V11";
           SetupWebsocketServer "/onebot/v11/ws" "OneBot V11"]
        else []).
Proof.
  unfold on_startup, setup.
  pose proof (proj1 (start_forward_over_started (ws_urls onebot_config)))
    as Hstart.
  unfold start_forward.
  destruct (is_ReverseDriver driver), (is_ForwardDriver driver),
    (ws_urls onebot_config) as [|url rest] eqn:Hurls; simpl in *;
    (split; [first [exact Hstart | reflexivity]|]);
    (split; [|reflexivity]);
    (split; [intros H; first [exfalso; apply H; reflexivity
                             | split; [discriminate | reflexivity]]
            | intros [H1 H2]; first [discriminate
                                    | exfalso; apply H1; reflexivity]]).
Qed.

End Adapter.

(** ** The theorems on the sample instance *)

Module Run.
Import Sample.

Definition handle_http :=
  _handle_http encode_utf8 digest get_auth_bearer json_loads py_repr
    escape_tag get_event_model parse_obj Event.

Definition handle_ws :=
  _handle_ws get_auth_bearer json_loads py_repr escape_tag get_event_model
    parse_obj Event.

Definition forward_receive :=
  forward_receive_loop json_loads py_repr escape_tag get_event_model parse_obj
    Event isinstance_LifecycleMetaEvent event_sub_type event_self_id.

Definition receive :=
  ws_receive_loop json_loads py_repr escape_tag get_event_model parse_obj Event.

Definition forward_ws :=
  _forward_ws json_loads py_repr escape_tag get_event_model parse_obj Event
    isinstance_LifecycleMetaEvent event_sub_type event_self_id.

Definition connect_event : event :=
  {| class := "LifecycleMetaEvent";
     fields := [("post_type", JStr "meta_event");
                ("meta_event_type", JStr "lifecycle");
                ("sub_type", JStr "connect"); ("self_id", JInt 42)] |}.

Definition message_event : event :=
  {| class := "PrivateMessageEvent";
     fields := [("post_type", JStr "message"); ("message_type", JStr "private");
                ("sub_type", JStr "friend"); ("self_id", JInt 42);
                ("message", JStr "hi")] |}.

End Run.

Lemma key_not_empty : "key" <> "".
Proof. discriminate. Defined.

Lemma check_signature_accepts_iff_witness :
  secret Sample.guarded_config = Some "key"
  /\ fst (_check_signature (event := Sample.event) Sample.encode_utf8
            Sample.digest Sample.guarded_config
            (Sample.request [("x-signature", "sha1=79656b00ff4a")]
               (Some (CBytes [Byte.x00; Byte.xff; Byte.x4a])))) = None
  /\ fst (_check_signature (event := Sample.event) Sample.encode_utf8
            Sample.digest Sample.guarded_config
            (Sample.request [("x-signature", "sha1=79656b6869")]
               (Some (CStr "hi")))) = None
  /\ fst (_check_signature (event := Sample.event) Sample.encode_utf8
            Sample.digest Sample.guarded_config
            (Sample.request [("x-signature", "sha1=79656B00FF4A")]
               (Some (CBytes [Byte.x00; Byte.xff; Byte.x4a])))) <> None.
Proof.
  split; [reflexivity|]. split; [|split].
  - destruct (proj1 (check_signature_accepts_iff (event := Sample.event)
                       Sample.encode_utf8 Sample.digest Sample.guarded_config
                       (Sample.request [("x-signature", "sha1=79656b00ff4a")]
                          (Some (CBytes [Byte.x00; Byte.xff; Byte.x4a])))
                       "key" eq_refl key_not_empty)
                [Byte.x00; Byte.xff; Byte.x4a] (or_introl eq_refl))
      as (hex & _ & Huniq & Hiff & _).
    apply Hiff. rewrite <- (Huniq "79656b00ff4a" eq_refl). reflexivity.
  - destruct (proj1 (check_signature_accepts_iff (event := Sample.event)
                       Sample.encode_utf8 Sample.digest Sample.guarded_config
                       (Sample.request [("x-signature", "sha1=79656b6869")]
                          (Some (CStr "hi")))
                       "key" eq_refl key_not_empty)
                (Sample.encode_utf8 "hi")
                (or_intror (ex_intro _ "hi" (conj eq_refl eq_refl))))
      as (hex & _ & Huniq & Hiff & _).
    apply Hiff. rewrite <- (Huniq "79656b6869" eq_refl). reflexivity.
  - destruct (proj1 (check_signature_accepts_iff (event := Sample.event)
                       Sample.encode_utf8 Sample.digest Sample.guarded_config
                       (Sample.request [("x-signature", "sha1=79656B00FF4A")]
                          (Some (CBytes [Byte.x00; Byte.xff; Byte.x4a])))
                       "key" eq_refl key_not_empty)
                [Byte.x00; Byte.xff; Byte.x4a] (or_introl eq_refl))
      as (hex & _ & Huniq & Hiff & _).
    intros Hacc. apply Hiff in Hacc.
    rewrite <- (Huniq "79656b00ff4a" eq_refl) in Hacc. discriminate Hacc.
Defined.

Lemma json_to_event_not_an_event_witness :
  dict_lookup [("status", JStr "ok"); ("retcode", JInt 0); ("echo", JStr "1")]
    "post_type" = None
  /\ json_to_event Sample.py_repr Sample.escape_tag Sample.get_event_model
       Sample.parse_obj Sample.Event Sample.api_result
     = (None, [AddResult Sample.api_result])
  /\ json_to_event Sample.py_repr Sample.escape_tag Sample.get_event_model
       Sample.parse_obj Sample.Event (JList [Sample.api_result])
     = (None, []).
Proof.
  split; [reflexivity|]. split.
  - exact (proj2 (json_to_event_not_an_event Sample.py_repr Sample.escape_tag
                    Sample.get_event_model Sample.parse_obj Sample.Event
                    Sample.api_result) _ eq_refl eq_refl).
  - exact (proj1 (json_to_event_not_an_event Sample.py_repr Sample.escape_tag
                    Sample.get_event_model Sample.parse_obj Sample.Event
                    (JList [Sample.api_result])) eq_refl).
Defined.

Lemma json_to_event_first_candidate_witness :
  dict_lookup [("post_type", JStr "message"); ("message_type", JStr "private");
               ("sub_type", JStr "friend"); ("self_id", JInt 42);
               ("message", JStr "hi")] "post_type" = Some (JStr "message")
  /\ exists key,
       event_key Sample.py_repr
         [("post_type", JStr "message"); ("message_type", JStr "private");
          ("sub_type", JStr "friend"); ("self_id", JInt 42);
          ("message", JStr "hi")] = Some key
       /\ fst (json_to_event Sample.py_repr Sample.escape_tag
                 Sample.get_event_model Sample.parse_obj Sample.Event
                 Sample.private_message)
          = first_success Sample.parse_obj
              (Sample.get_event_model key ++ [Sample.Event])
              Sample.private_message.
Proof.
  split; [reflexivity|].
  destruct (json_to_event_first_candidate Sample.py_repr Sample.escape_tag
              Sample.get_event_model Sample.parse_obj Sample.Event
              [("post_type", JStr "message"); ("message_type", JStr "private");
               ("sub_type", JStr "friend"); ("self_id", JInt 42);
               ("message", JStr "hi")] "message" eq_refl)
    as (key & Hkey & Hfirst & _).
  exists key. split; [exact Hkey | exact Hfirst].
Defined.

(** C2 as stated fails on an object whose [post_type] is a number: the
    fallback class takes it, yet the decoder gives no event and only
    logs the failure. *)
Lemma json_to_event_numeric_post_type_counterexample :
  dict_contains [("post_type", JInt 5); ("self_id", JInt 1)] "post_type" = true
  /\ Sample.parse_obj Sample.Event Sample.numeric_post_type
     = Some {| Sample.class := "Event";
               Sample.fields := [("post_type", JInt 5); ("self_id", JInt 1)] |}
  /\ json_to_event Sample.py_repr Sample.escape_tag Sample.get_event_model
       Sample.parse_obj Sample.Event Sample.numeric_post_type
     = (None,
        [failed_to_parse (event := Sample.event) Sample.py_repr
           Sample.escape_tag Sample.numeric_post_type]).
Proof. repeat split. Qed.

Lemma lookup_key_segments_witness :
  dict_lookup Sample.empty_sub_type "post_type" = Some (JStr "message")
  /\ event_key Sample.py_repr Sample.empty_sub_type = Some "message"
  /\ event_key Sample.py_repr
       [("post_type", JStr "message"); ("message_type", JStr "private");
        ("sub_type", JStr "friend")] = Some "message.private.friend".
Proof.
  split; [reflexivity|]. split.
  - exact (proj1 (lookup_key_segments (event := Sample.event) Sample.py_repr
                    Sample.escape_tag Sample.get_event_model Sample.parse_obj
                    Sample.Event Sample.empty_sub_type "message" eq_refl)).
  - exact (proj1 (lookup_key_segments (event := Sample.event) Sample.py_repr
                    Sample.escape_tag Sample.get_event_model Sample.parse_obj
                    Sample.Event
                    [("post_type", JStr "message");
                     ("message_type", JStr "private");
                     ("sub_type", JStr "friend")] "message" eq_refl)).
Defined.

(** C9 as stated fails on a [sub_type] that is the empty string: the
    field is present and not null, so the claim's key ends in a dot,
    and the key of the code has no such segment. It fails as well on a
    [post_type] that is a number: the claim builds a key from it, the
    code builds none. *)
Lemma event_key_empty_sub_type_counterexample :
  dict_lookup Sample.empty_sub_type "sub_type" = Some (JStr "")
  /\ spec_event_key Sample.py_repr Sample.empty_sub_type = Some "message."
  /\ event_key Sample.py_repr Sample.empty_sub_type = Some "message"
  /\ spec_event_key Sample.py_repr [("post_type", JInt 5); ("self_id", JInt 1)]
     = Some "5"
  /\ event_key Sample.py_repr [("post_type", JInt 5); ("self_id", JInt 1)]
     = None.
Proof. repeat split. Qed.

Lemma keyed_empty : keyed_by_identity ∅.
Proof. intros k b H. rewrite lookup_empty in H. discriminate. Qed.

Lemma forward_identification_gate_witness :
  exists r before after,
    Run.forward_receive "ws://gw" (Sample.socket [] false) None ∅
      ([Frame (CStr Sample.heartbeat_text); Frame (CStr Sample.message_text)]
         ++ Frame (CStr Sample.connect_text)
         :: [Frame (CStr Sample.message_text); Frame (CStr Sample.result_text)])
    = (r, Some Sample.bot_42, <["42" := Sample.bot_42]> ∅,
       before
         ++ [BotConnect Sample.bot_42;
             CreateTask Sample.bot_42 Run.connect_event]
         ++ after)
    /\ List.filter is_task before = []
    /\ List.filter is_connect before = []
    /\ List.filter is_task after
       = [CreateTask Sample.bot_42 Run.message_event]
    /\ List.filter is_connect after = [].
Proof.
  exact (proj1 (proj2
    (forward_identification_gate Sample.json_loads Sample.py_repr
       Sample.escape_tag Sample.get_event_model Sample.parse_obj Sample.Event
       Sample.isinstance_LifecycleMetaEvent Sample.event_sub_type
       Sample.event_self_id Sample.open_config "ws://gw"
       (Sample.socket [] false) ∅))
    [Frame (CStr Sample.heartbeat_text); Frame (CStr Sample.message_text)]
    (CStr Sample.connect_text) Sample.connect_42 Run.connect_event []
    [Frame (CStr Sample.message_text); Frame (CStr Sample.result_text)]
    eq_refl eq_refl eq_refl eq_refl).
Defined.

(** C5. The claim fails on the code. A connection to the WebSocket
    server holds the session of identity 42 and is still receiving; a
    second handshake for 42 on the server is refused. A forward
    connection that receives the lifecycle connect event of 42 is not:
    it registers a second session for 42 with no test, and no socket
    is closed, so two connections serve identity 42 at once. When the
    forward connection is then lost it pops 42 from [self.bots] while
    the first connection is still open, and a further handshake for 42
    on the server is accepted. *)
Theorem forward_registers_over_active_session :
  let passive := Sample.socket [Frame (CStr Sample.message_text)] false in
  let kept :=
    [Connected (Sample.socket [Frame (CStr Sample.connect_text)] false)] in
  let lost :=
    [Connected (Sample.socket [Frame (CStr Sample.connect_text); ReceiveError]
                  false)] in
  let '(o1, bots1, acts1) := Run.handle_ws Sample.open_config ∅ passive in
  let '(s2, bots2, acts2) :=
    Run.forward_ws Sample.open_config "ws://gw" bots1 kept in
  let '(s3, bots3, acts3) :=
    Run.forward_ws Sample.open_config "ws://gw" bots1 lost in
  (o1 = Serving /\ bots1 !! "42" = Some Sample.bot_42)
  /\ fst (fst (Run.handle_ws Sample.open_config bots1 passive)) = Refused
  /\ (s2 = Receiving
      /\ List.filter is_connect (acts1 ++ acts2)
         = [BotConnect Sample.bot_42; BotConnect Sample.bot_42]
      /\ List.filter is_disconnect (acts1 ++ acts2) = []
      /\ List.filter is_close (acts1 ++ acts2) = [])
  /\ (s3 = Connecting
      /\ List.filter is_disconnect (acts1 ++ acts3)
         = [BotDisconnect Sample.bot_42]
      /\ bots3 !! "42" = None
      /\ fst (fst (Run.handle_ws Sample.open_config bots3 passive)) = Serving).
Proof. vm_compute. repeat split. Qed.

Lemma handle_ws_teardown_once_witness :
  Sample.open_config.(access_token) = None
  /\ fst (Run.receive Sample.bot_42
            [Frame (CStr Sample.message_text); ReceiveError]) <> Awaiting
  /\ List.filter is_close
       (snd (Run.handle_ws Sample.open_config ∅
               (Sample.socket [Frame (CStr Sample.message_text); ReceiveError]
                  true)))
     = [WsClose None None]
  /\ List.filter is_disconnect
       (snd (Run.handle_ws Sample.open_config ∅
               (Sample.socket [Frame (CStr Sample.message_text); ReceiveError]
                  true)))
     = [BotDisconnect Sample.bot_42].
Proof.
  split; [reflexivity|].
  assert (Hleft : fst (Run.receive Sample.bot_42
                         [Frame (CStr Sample.message_text); ReceiveError])
                  <> Awaiting) by (vm_compute; discriminate).
  split; [exact Hleft|].
  pose proof (handle_ws_teardown_once Sample.get_auth_bearer Sample.json_loads
                Sample.py_repr Sample.escape_tag Sample.get_event_model
                Sample.parse_obj Sample.Event Sample.open_config ∅
                (Sample.socket [Frame (CStr Sample.message_text); ReceiveError]
                   true)
                "42" eq_refl eq_refl eq_refl) as H.
  unfold Run.handle_ws.
  destruct (_handle_ws _ _ _ _ _ _ _ _ _ _) as [[outcome bots'] acts].
  destruct H as [_ H]. destruct (H Hleft) as (_ & _ & Hclose & Hdisc & _).
  split; [exact Hclose | exact Hdisc].
Defined.

Lemma undecodable_payload_keeps_connection_witness :
  (exists logs,
     json_to_event Sample.py_repr Sample.escape_tag Sample.get_event_model
       Sample.parse_obj Sample.Event Sample.no_self_id
     = (None,
        logs ++ [failed_to_parse Sample.py_repr Sample.escape_tag
                   Sample.no_self_id])
     /\ Run.receive Sample.bot_42
          [Frame (CStr Sample.no_self_id_text); Frame (CStr Sample.message_text)]
        = (Awaiting,
           (logs ++ [failed_to_parse Sample.py_repr Sample.escape_tag
                       Sample.no_self_id])
             ++ [CreateTask Sample.bot_42 Run.message_event]))
  /\ Run.handle_ws Sample.open_config ∅
       (Sample.socket
          [Frame (CStr Sample.message_text); Frame (CStr Sample.malformed_text);
           Frame (CStr Sample.message_text)] true)
     = (Returned, ∅,
        [WsAccept; BotConnect Sample.bot_42;
         CreateTask Sample.bot_42 Run.message_event;
         Log "ERROR"
           "<r><bg #f8bbd0>Error while process data from websocketfor bot 42.</bg #f8bbd0></r>";
         WsClose None None; BotDisconnect Sample.bot_42])
  /\ Run.forward_ws Sample.open_config "ws://gw" ∅
       [Connected
          (Sample.socket
             [Frame (CStr Sample.connect_text);
              Frame (CStr Sample.malformed_text);
              Frame (CStr Sample.message_text)] false)]
     = (Connecting, ∅,
        [OpenWebsocket "ws://gw" ∅;
         BotConnect Sample.bot_42;
         CreateTask Sample.bot_42 Run.connect_event;
         WsClose None None;
         Log "ERROR"
           "<r><bg #f8bbd0>Error while process data from websocketws://gw. Trying to reconnect...</bg #f8bbd0></r>";
         BotDisconnect Sample.bot_42;
         Sleep 3]).
Proof.
  pose proof
    (undecodable_payload_keeps_connection Sample.get_auth_bearer
       Sample.json_loads Sample.py_repr Sample.escape_tag
       Sample.get_event_model Sample.parse_obj Sample.Event
       Sample.isinstance_LifecycleMetaEvent Sample.event_sub_type
       Sample.event_self_id Sample.open_config "ws://gw"
       (Sample.socket [] false) Sample.bot_42 None ∅
       [Frame (CStr Sample.message_text)])
    as (Hskip & _ & Hserver & Hclient).
  split; [|split].
  - destruct (Hskip (CStr Sample.no_self_id_text) [("post_type", JStr "notice")]
                eq_refl eq_refl eq_refl) as (logs & Hlogs & Hloop & _).
    exists logs. split; [exact Hlogs | exact Hloop].
  - exact (proj2
      (Hserver
         (Sample.socket
            [Frame (CStr Sample.message_text);
             Frame (CStr Sample.malformed_text);
             Frame (CStr Sample.message_text)] true)
         "42" [Frame (CStr Sample.message_text)] (CStr Sample.malformed_text)
         [Frame (CStr Sample.message_text)]
         eq_refl eq_refl eq_refl eq_refl eq_refl eq_refl)).
  - destruct (Hclient
                (Sample.socket
                   [Frame (CStr Sample.connect_text);
                    Frame (CStr Sample.malformed_text);
                    Frame (CStr Sample.message_text)] false)
                [Frame (CStr Sample.connect_text)]
                (CStr Sample.malformed_text)
                [Frame (CStr Sample.message_text)] []
                eq_refl eq_refl eq_refl)
      as (session1 & bots1 & acts1 & Hwait & Hrun).
    injection Hwait as <- <- <-. exact Hrun.
Defined.

(** C7 as stated fails on a frame that is not JSON. The handler of the
    WebSocket server logs the exception without the payload, closes
    the socket and unregisters the session, and the frame after it is
    never read; the forward loop closes its socket and leaves its
    receive loop. *)
Lemma malformed_frame_closes_connection_counterexample :
  Sample.json_loads (CStr Sample.malformed_text) = None
  /\ Run.handle_ws Sample.open_config ∅
       (Sample.socket
          [Frame (CStr Sample.malformed_text); Frame (CStr Sample.message_text)]
          false)
     = (Returned, ∅,
        [WsAccept; BotConnect Sample.bot_42;
         ws_error_log Sample.escape_tag "42";
         WsClose None None; BotDisconnect Sample.bot_42])
  /\ Run.forward_receive "ws://gw" (Sample.socket [] false)
       (Some Sample.bot_42) (<["42" := Sample.bot_42]> ∅)
       [Frame (CStr Sample.malformed_text); Frame (CStr Sample.message_text)]
     = (Caught, Some Sample.bot_42, <["42" := Sample.bot_42]> ∅,
        [WsClose None None; forward_error_log Sample.escape_tag "ws://gw"]).
Proof. repeat split. Qed.

(** The statuses of C8 on requests, one per rejection, under a secret
    and a token. *)
Example handle_http_statuses :
  let status r :=
    match fst (fst (Run.handle_http Sample.guarded_config ∅ r)) with
    | Returns resp => Some (status_code resp)
    | Raises => None
    end in
  status (Sample.request [] None) = Some 400
  /\ status (Sample.request [("x-self-id", "42")] None) = Some 401
  /\ status (Sample.request [("x-self-id", "42"); ("x-signature", "sha1=00")]
               None) = Some 400
  /\ status (Sample.request [("x-self-id", "42"); ("x-signature", "sha1=00")]
               (Some (CStr Sample.message_text))) = Some 403
  /\ status (Sample.request
               [("x-self-id", "42");
                ("x-signature",
                 "sha1=" +:+ hexlify (Sample.digest (Sample.encode_utf8 "key")
                                        (Sample.encode_utf8 Sample.message_text)))]
               (Some (CStr Sample.message_text))) = Some 403
  /\ status Sample.signed_request = Some 204.
Proof. repeat split. Qed.

Lemma handle_http_no_body_witness :
  nonempty (headers Sample.empty_request !! "x-self-id") = Some "42"
  /\ content Sample.empty_request = None
  /\ Run.handle_http Sample.open_config ∅ Sample.empty_request
     = (Returns (mkResponse 204 None), ∅, []).
Proof.
  split; [reflexivity|]. split; [reflexivity|].
  exact (proj1
    (handle_http_no_body Sample.encode_utf8 Sample.digest
       Sample.get_auth_bearer Sample.json_loads Sample.py_repr
       Sample.escape_tag Sample.get_event_model Sample.parse_obj Sample.Event
       Sample.open_config ∅ Sample.empty_request "42"
       eq_refl eq_refl eq_refl) eq_refl).
Defined.

(** A forward loop from its first attempt: the gateway refuses once,
    then sends a heartbeat and a message before it identifies itself,
    a message after, and a frame that is not JSON; the next connection
    sends a message and no connect event. *)
Example forward_ws_run :
  let '(state, bots, acts) :=
    Run.forward_ws Sample.open_config "ws://gw" ∅
      [ConnectError;
       Connected (Sample.socket
                    [Frame (CStr Sample.heartbeat_text);
                     Frame (CStr Sample.message_text);
                     Frame (CStr Sample.connect_text);
                     Frame (CStr Sample.message_text);
                     Frame (CStr Sample.malformed_text);
                     Frame (CStr Sample.message_text)] true);
       Connected (Sample.socket [Frame (CStr Sample.message_text)] false)] in
  state = Receiving
  /\ bots = ∅
  /\ List.filter (fun a => is_task a || is_connect a || is_disconnect a) acts
     = [BotConnect Sample.bot_42;
        CreateTask Sample.bot_42 Run.connect_event;
        CreateTask Sample.bot_42 Run.message_event;
        BotDisconnect Sample.bot_42]
  /\ List.filter (fun a => match a with Sleep _ => true | _ => false end) acts
     = [Sleep 3; Sleep 3].
Proof. repeat split. Qed.

(** The scenario of the spec: identity 123, no secret and no token, a
    private message from a friend. *)
Example handle_http_scenario :
  Run.handle_http Sample.open_config ∅
    (Sample.request [("x-self-id", "123")] (Some (CStr Sample.message_text)))
  = (Returns (mkResponse 204 None),
     {[ "123" := {| self_id := "123" |} ]},
     [BotConnect {| self_id := "123" |};
      CreateTask {| self_id := "123" |} Run.message_event])
  /\ Run.handle_http Sample.open_config ∅
       (Sample.request [] (Some (CStr Sample.message_text)))
     = (Returns (mkResponse 400 (Some "Missing X-Self-ID Header")), ∅,
        [Log "WARNING" "Missing X-Self-ID Header"]).
Proof. repeat split. Qed.

(** ** What the WebSocket server does not look at *)

Section Independence.

Context {event model : Type}.
Variable get_auth_bearer : option string -> option string.
Variable json_loads : str_or_bytes -> option json.
Variable py_repr : json -> string.
Variable escape_tag : string -> string.
Variable get_event_model : string -> list model.
Variable parse_obj : model -> json -> option event.
Variable Event : model.

(** X13. The handler of the WebSocket server looks at two headers of the
    handshake, the identity and the authorization, and at the
    configured token: the secret, an [x-signature] header or any other
    header, and the body of the handshake request change nothing of
    what it does. *)
Theorem handle_ws_ignores_signature (cfg cfg' : Config)
  (bots : gmap string Bot) (websocket : WebSocket) (request' : Request) :
  access_token cfg = access_token cfg' ->
  headers request' !! "x-self-id"
    = headers (ws_request websocket) !! "x-self-id" ->
  headers request' !! "authorization"
    = headers (ws_request websocket) !! "authorization" ->
  _handle_ws get_auth_bearer json_loads py_repr escape_tag get_event_model
    parse_obj Event cfg' bots
    {| ws_request := request';
       incoming := incoming websocket;
       close_raises := close_raises websocket |}
  = _handle_ws get_auth_bearer json_loads py_repr escape_tag get_event_model
      parse_obj Event cfg bots websocket.
Proof.
  intros Htoken Hid Hauth.
  unfold _handle_ws, _check_access_token, ws_teardown, ws_close. simpl.
  rewrite Hid, Hauth, Htoken. reflexivity.
Qed.

End Independence.

(** ** The further properties on the sample instance *)

Module SampleStartup.

(** Modelled from the spec: [URL], taken to raise on an address that
    does not start with a WebSocket scheme. *)
Definition URL (url : string) : option string :=
  if String.prefix "ws://" url || String.prefix "wss://" url
  then Some url else None.

Definition config : Config :=
  {| secret := None; access_token := None;
     ws_urls := ["ws://a:6700"; "6700"; "wss://b/ws"] |}.

Definition forward_driver : Driver :=
  {| is_ReverseDriver := false; is_ForwardDriver := true;
     config_driver := "~websockets" |}.

Definition reverse_driver : Driver :=
  {| is_ReverseDriver := true; is_ForwardDriver := false;
     config_driver := "~fastapi" |}.

End SampleStartup.

Example startup_run :
  on_startup Sample.escape_tag SampleStartup.config SampleStartup.URL
    SampleStartup.forward_driver
  = [StartForward "ws://a:6700";
     bad_url_log Sample.escape_tag "6700";
     StartForward "wss://b/ws"]
  /\ on_startup Sample.escape_tag SampleStartup.config SampleStartup.URL
       SampleStartup.reverse_driver = []
  /\ setup SampleStartup.config SampleStartup.reverse_driver
     = [SetupHttpServer "/onebot/v11/http" "POST" "OneBot V11";
        SetupHttpServer "/onebot/v11/" "POST" "OneBot V11";
        SetupWebsocketServer "/onebot/v11/ws" "OneBot V11";
        SetupLog "WARNING"
          "Current driver ~fastapi don't support forward connections! Ignored"].
Proof. repeat split. Qed.

(** A handshake with a wrong token, and the same request over HTTP
    with its signature missing. *)
Example handshake_refused_run :
  Run.handle_ws Sample.guarded_config ∅
    {| ws_request := Sample.request [("x-self-id", "42");
                                     ("authorization", "Bearer no")] None;
       incoming := [Frame (CStr Sample.message_text)];
       close_raises := false |}
  = (Refused, ∅,
     [Log "WARNING" "Authorization Header is invalid";
      WsClose (Some 1008) (Some "Authorization Header is invalid")])
  /\ Run.handle_ws Sample.guarded_config ∅
       {| ws_request := Sample.request [("x-self-id", "42");
                                        ("authorization", "Bearer tok")] None;
          incoming := [Frame (CStr Sample.message_text)];
          close_raises := false |}
     = (Serving, <["42" := Sample.bot_42]> ∅,
        [WsAccept; BotConnect Sample.bot_42;
         CreateTask Sample.bot_42 Run.message_event]).
Proof. repeat split. Qed.

Lemma handle_http_rejection_only_logs_witness :
  fst (fst (Run.handle_http Sample.guarded_config ∅
              (Sample.request [("x-self-id", "42")] None)))
  = Returns {| status_code := 401;
               response_content := Some "Missing Signature";
               response_request :=
                 Some (Sample.request [("x-self-id", "42")] None) |}
  /\ snd (fst (Run.handle_http Sample.guarded_config ∅
                 (Sample.request [("x-self-id", "42")] None))) = ∅
  /\ Forall (fun a => is_log a = true)
       (snd (Run.handle_http Sample.guarded_config ∅
               (Sample.request [("x-self-id", "42")] None))).
Proof.
  split; [reflexivity|].
  destruct (handle_http_rejection_only_logs Sample.encode_utf8 Sample.digest
              Sample.get_auth_bearer Sample.json_loads Sample.py_repr
              Sample.escape_tag Sample.get_event_model Sample.parse_obj
              Sample.Event Sample.guarded_config ∅
              (Sample.request [("x-self-id", "42")] None)
              {| status_code := 401;
                 response_content := Some "Missing Signature";
                 response_request :=
                   Some (Sample.request [("x-self-id", "42")] None) |}
              eq_refl ltac:(discriminate))
    as (_ & _ & Hbots & Hlogs & _).
  split; [exact Hbots | exact Hlogs].
Defined.

Lemma handle_ws_ignores_signature_witness :
  access_token Sample.guarded_config = access_token
    {| secret := None; access_token := Some "tok"; ws_urls := [] |}
  /\ Run.handle_ws
       {| secret := None; access_token := Some "tok"; ws_urls := [] |} ∅
       {| ws_request := Sample.request [("x-self-id", "42");
                                        ("authorization", "Bearer tok")] None;
          incoming := [Frame (CStr Sample.message_text)];
          close_raises := false |}
     = Run.handle_ws Sample.guarded_config ∅
         {| ws_request := Sample.request [("x-self-id", "42");
                                          ("authorization", "Bearer tok");
                                          ("x-signature", "sha1=00")]
                            (Some (CStr "body"));
            incoming := [Frame (CStr Sample.message_text)];
            close_raises := false |}.
Proof.
  split; [reflexivity|].
  exact (handle_ws_ignores_signature Sample.get_auth_bearer Sample.json_loads
           Sample.py_repr Sample.escape_tag Sample.get_event_model
           Sample.parse_obj Sample.Event Sample.guarded_config
           {| secret := None; access_token := Some "tok"; ws_urls := [] |} ∅
           {| ws_request := Sample.request [("x-self-id", "42");
                                            ("authorization", "Bearer tok");
                                            ("x-signature", "sha1=00")]
                              (Some (CStr "body"));
              incoming := [Frame (CStr Sample.message_text)];
              close_raises := false |}
           (Sample.request [("x-self-id", "42");
                            ("authorization", "Bearer tok")] None)
           eq_refl eq_refl eq_refl).
Defined.

Lemma forward_loop_survives_exceptions_witness :
  never_cancelled
    [ConnectError;
     Connected (Sample.socket
                  [Frame (CStr Sample.connect_text); ReceiveError] true);
     Connected (Sample.socket [Frame (CStr Sample.malformed_text)] false)]
  = true
  /\ (let '(state, _, acts) :=
        Run.forward_ws Sample.open_config "ws://gw" ∅
          [ConnectError;
           Connected (Sample.socket
                        [Frame (CStr Sample.connect_text); ReceiveError] true);
           Connected (Sample.socket [Frame (CStr Sample.malformed_text)] false)]
      in
      state = Connecting
      /\ length (List.filter is_open acts) = 3%nat
      /\ length (List.filter is_sleep acts) = 3%nat).
Proof.
  split; [reflexivity|].
  pose proof
    (forward_loop_survives_exceptions Sample.json_loads Sample.py_repr
       Sample.escape_tag Sample.get_event_model Sample.parse_obj Sample.Event
       Sample.isinstance_LifecycleMetaEvent Sample.event_sub_type
       Sample.event_self_id Sample.open_config "ws://gw" ∅
       [ConnectError;
        Connected (Sample.socket
                     [Frame (CStr Sample.connect_text); ReceiveError] true);
        Connected (Sample.socket [Frame (CStr Sample.malformed_text)] false)]
       eq_refl) as H.
  unfold Run.forward_ws.
  destruct (_forward_ws _ _ _ _ _ _ _ _ _ _ _ _ _) as [[state bots'] acts]
    eqn:Hrun.
  destruct H as (_ & Hconn & _).
  assert (Hstate : state = Connecting).
  { vm_compute in Hrun. injection Hrun as <- _ _. reflexivity. }
  split; [exact Hstate | exact (Hconn Hstate)].
Defined.
